(** * Artificial grammar learning experiment: the trial engine

    A shallow embedding of the two trial loops of
    [artificial_grammar_experiment.py] (training phase, lines 175-244, and
    test phase, lines 256-306) together with the properties of the engine.

    Conventions of the embedding.
    - Python [str] values are [string]s.  Key names delivered by
      [psychopy.event] are ASCII identifiers ("a", "return", "backspace",
      "space", ...), so [str.upper] and [str.lower] are modelled on the ASCII
      letters; characters outside [a-z]/[A-Z] are left unchanged.
    - Time stamps (Python floats read off the trial-local clock) are
      rationals: the engine only stores and compares them.
    - The keyboard is the environment.  In the training phase it is the
      sequence of batches returned by the successive calls of
      [event.getKeys(timeStamped = clock)]; in the test phase it is the value
      returned by [event.waitKeys(keyList, maxWait, timeStamped)].
    - [pd.DataFrame(results).to_csv(path)] rewrites the whole file with the
      rows accumulated so far: the file is modelled by [option (list record)],
      [None] meaning that nothing has been written yet. *)

From Stdlib Require Import String Ascii List ZArith NArith QArith Bool Lia.
From Stdlib Require Import Permutation Sorted.
Import ListNotations.

Open Scope string_scope.
Open Scope list_scope.

(** ** Python string primitives used by the engine *)

Module PyStr.

Definition is_lower (c : ascii) : bool :=
  ((97 <=? N_of_ascii c) && (N_of_ascii c <=? 122))%N.

Definition is_upper (c : ascii) : bool :=
  ((65 <=? N_of_ascii c) && (N_of_ascii c <=? 90))%N.

Definition upper_char (c : ascii) : ascii :=
  if is_lower c then ascii_of_N (N_of_ascii c - 32) else c.

Definition lower_char (c : ascii) : ascii :=
  if is_upper c then ascii_of_N (N_of_ascii c + 32) else c.

Fixpoint map_chars (f : ascii -> ascii) (s : string) : string :=
  match s with
  | EmptyString => EmptyString
  | String c s' => String (f c) (map_chars f s')
  end.

(** [s.upper()] and [s.lower()] *)
Definition upper : string -> string := map_chars upper_char.
Definition lower : string -> string := map_chars lower_char.

(** [c.isspace()] for the code points below 256: TAB, LF, VT, FF, CR,
    FS, GS, RS, US, SPACE, NEL and NBSP. *)
Definition isspace (c : ascii) : bool :=
  let n := N_of_ascii c in
  (((9 <=? n) && (n <=? 13)) || ((28 <=? n) && (n <=? 32))
   || (n =? 133) || (n =? 160))%N.

Fixpoint lstrip (s : string) : string :=
  match s with
  | EmptyString => EmptyString
  | String c s' => if isspace c then lstrip s' else s
  end.

Fixpoint rstrip (s : string) : string :=
  match s with
  | EmptyString => EmptyString
  | String c s' =>
      match rstrip s' with
      | EmptyString => if isspace c then EmptyString else String c EmptyString
      | r => String c r
      end
  end.

(** [s.strip()] *)
Definition strip (s : string) : string := rstrip (lstrip s).

(** [''.join(l)] *)
Definition join (l : list string) : string := String.concat "" l.

(** [any(p(c) for c in s)] *)
Fixpoint any_char (p : ascii -> bool) (s : string) : bool :=
  match s with
  | EmptyString => false
  | String c s' => p c || any_char p s'
  end.

(** The string contains a lower-case letter. *)
Definition has_lower : string -> bool := any_char is_lower.

Definition no_lower (s : string) : Prop := has_lower s = false.

End PyStr.

(** A key event as [event.getKeys]/[event.waitKeys] deliver it with
    [timeStamped = clock]: the key name and its time on the trial-local
    clock. *)
Definition key_event : Type := (string * Q)%type.

(** ** Training phase (lines 175-244) *)

Module Training.
Import PyStr.

(** The variables updated by the [for key, time_ in keys] loop. *)
Record loop_vars : Type := LoopVars {
  trial : list string;
  RT : option Q;
  response : bool
}.

(** One row of [results_training_phase]. *)
Record TrialRecord : Type := MkRecord {
  rec_block : Z;
  rec_stimulus : string;
  rec_participant_response : string;
  rec_accuracy : Z;
  rec_RT : option Q
}.

(** Body of the [for key, time_ in keys] loop (lines 208-218). *)
Definition handle_key (v : loop_vars) (e : key_event) : loop_vars :=
  let '(key, time_) := e in
  if key =? "return" then
    LoopVars (trial v) (Some time_) false
  else if key =? "backspace" then
    match trial v with
    | [] => v
    | _ :: _ => LoopVars (removelast (trial v)) (RT v) (response v)
    end
  else if (String.length key =? 1)%nat then
    LoopVars (trial v ++ [upper key]) (RT v) (response v)
  else v.

(** The whole [for] loop over one polled batch. *)
Definition handle_batch (v : loop_vars) (keys : list key_event) : loop_vars :=
  fold_left handle_key keys v.

(** State of the phase at the head of [while response == True]:
    the (block, stimulus) pairs still to be typed correctly, the first one
    being on screen; the values of [trial] and [RT]; the accumulated rows
    and the contents of the training CSV file. *)
Record state : Type := MkState {
  st_queue : list (Z * string);
  st_trial : list string;
  st_RT : option Q;
  results_training_phase : list TrialRecord;
  training_csv : option (list TrialRecord)
}.

(** One iteration of [while response == True] (lines 204-222) and, when
    the loop exits, the evaluation, the row and the write (lines 224-244),
    followed by the resets at the start of the next attempt (lines 193-198). *)
Definition training_step (s : state) (keys : list key_event) : state :=
  match st_queue s with
  | [] => s
  | (block, training_stimulus) :: rest =>
      let v := handle_batch (LoopVars (st_trial s) (st_RT s) true) keys in
      let participant_response := join (trial v) in
      if response v then
        MkState (st_queue s) (trial v) (RT v)
                (results_training_phase s) (training_csv s)
      else
        let correct := training_stimulus =? strip participant_response in
        let accuracy := if correct then 1%Z else 0%Z in
        let results :=
          results_training_phase s ++
            [MkRecord block training_stimulus participant_response accuracy (RT v)] in
        MkState (if correct then rest else st_queue s) [] None
                results (Some results)
  end.

(** The two blocks: [for block in range(1,3)] over the list as shuffled
    before each block. *)
Definition training_queue (shuffled1 shuffled2 : list string) : list (Z * string) :=
  map (pair 1%Z) shuffled1 ++ map (pair 2%Z) shuffled2.

Definition training_init (queue : list (Z * string)) : state :=
  MkState queue [] None [] None.

(** The phase run against the batches polled so far. *)
Definition training_run (s : state) (batches : list (list key_event)) : state :=
  fold_left training_step batches s.

(** The batch holds a commit ('return') event. *)
Definition commits (keys : list key_event) : bool :=
  existsb (fun e => fst e =? "return") keys.

(** The loop variables as reset at the start of an attempt (lines 193-198). *)
Definition fresh : loop_vars := LoopVars [] None true.

(** The response typed by an attempt that consists of the single batch
    [keys]. *)
Definition attempt_response (keys : list key_event) : string :=
  join (trial (handle_batch fresh keys)).

(** The row appended (lines 224-240) by an attempt of the stimulus [stim] of
    block [b] that leaves the [for] loop with the variables [v]. *)
Definition row_of (b : Z) (stim : string) (v : loop_vars) : TrialRecord :=
  MkRecord b stim (join (trial v))
           (if stim =? strip (join (trial v)) then 1%Z else 0%Z) (RT v).

End Training.

(** ** Test phase (lines 256-306) *)

Module Test.
Import PyStr.

(** One row of [results_test_phase]. *)
Record TrialRecord : Type := MkRecord {
  rec_stimulus : string;
  rec_grammar_rule : Z;
  rec_key_pressed : option string;
  rec_correct_key : string;
  rec_accuracy : Z;
  rec_RT : option Q
}.

Definition key_options : list string := ["J"; "F"].

(** [key_options + [k.lower() for k in key_options]] *)
Definition keyList : list string := key_options ++ map lower key_options.

Definition maxWait : Q := 6.

(** [key_options[i]] *)
Definition key_option (i : nat) : string := nth i key_options "".

(** Lines 269-302 for one row of [test_stimuli_df], given the value
    [key_response] returned by [event.waitKeys]: [None] after a timeout,
    otherwise the list of the captured (key, time) pairs.  As in Python,
    [if key_response] fails on [None] and on the empty list. *)
Definition test_trial (row : string * Z)
           (key_response : option (list key_event)) : TrialRecord :=
  let '(test_stimulus, grammar_rule) := row in
  if (grammar_rule =? 0)%Z then
    let correct_key := key_option 0 in
    match key_response with
    | Some ((key, time_) :: _) =>
        let key_pressed := upper key in
        MkRecord test_stimulus grammar_rule (Some key_pressed) correct_key
                 (if key_pressed =? key_option 0 then 1%Z else 0%Z) (Some time_)
    | _ => MkRecord test_stimulus grammar_rule None correct_key 0%Z None
    end
  else
    let correct_key := key_option 1 in
    match key_response with
    | Some ((key, time_) :: _) =>
        let key_pressed := upper key in
        MkRecord test_stimulus grammar_rule (Some key_pressed) correct_key
                 (if key_pressed =? key_option 1 then 1%Z else 0%Z) (Some time_)
    | _ => MkRecord test_stimulus grammar_rule None correct_key 0%Z None
    end.

(** State of the phase at the head of the [for index, row] loop: the rows
    still to be shown, the accumulated records and the contents of the test
    CSV file. *)
Record state : Type := MkState {
  st_rows : list (string * Z);
  results_test_phase : list TrialRecord;
  test_csv : option (list TrialRecord)
}.

(** The file is written by the statement that follows the loop
    (lines 305-306): it runs once the last row has been handled. *)
Definition after_loop (rows : list (string * Z)) (results : list TrialRecord)
           (csv : option (list TrialRecord)) : option (list TrialRecord) :=
  match rows with
  | [] => Some results
  | _ :: _ => csv
  end.

Definition test_init (rows : list (string * Z)) : state :=
  MkState rows [] (after_loop rows [] None).

(** One iteration of the [for] loop, for the answer of [event.waitKeys]. *)
Definition test_step (s : state) (key_response : option (list key_event)) : state :=
  match st_rows s with
  | [] => s
  | row :: rest =>
      let results := results_test_phase s ++ [test_trial row key_response] in
      MkState rest results (after_loop rest results (test_csv s))
  end.

Definition test_run (s : state) (responses : list (option (list key_event))) : state :=
  fold_left test_step responses s.

(** The event is one that [event.waitKeys(keyList, maxWait, timeStamped)]
    accepts: its key is in [keyList] and its time stamp lies in the window
    opened by [clock.reset()]. *)
Definition in_window (e : key_event) : bool :=
  existsb (String.eqb (fst e)) keyList
  && Qle_bool 0 (snd e) && Qle_bool (snd e) maxWait.

(** Contract of the bounded wait of the input library, for the events
    [arrived] at the keyboard after [clock.reset()]: it answers [None]
    when no accepted event arrived in the window, and otherwise a
    non-empty list of accepted events that arrived in the window. *)
Definition wait_contract (arrived : list key_event)
           (key_response : option (list key_event)) : Prop :=
  match key_response with
  | None => forall e, In e arrived -> in_window e = false
  | Some l => l <> [] /\ forall e, In e l -> In e arrived /\ in_window e = true
  end.

End Test.

(** ** The session around the two loops: stimulus loading, file names, and
    the selections of [artificial_grammar_analysis.py] *)

Module Session.
Import PyStr.

(** Line 138 of the experiment:
    [[letter_string.strip() for letter_string in content_training_phase]]. *)
Definition load_training_stimuli (content_training_phase : list string) : list string :=
  map strip content_training_phase.

(** [s[0]] and [s[-1]], when they exist. *)
Definition first_char (s : string) : option ascii :=
  match s with
  | EmptyString => None
  | String c _ => Some c
  end.

Fixpoint last_char (s : string) : option ascii :=
  match s with
  | EmptyString => None
  | String c EmptyString => Some c
  | String _ s' => last_char s'
  end.

(** [s.endswith(suffix)]: some tail of [s] is [suffix]. *)
Fixpoint endswith (s suffix : string) : bool :=
  (s =? suffix)
  || match s with
     | EmptyString => false
     | String _ s' => endswith s' suffix
     end.

(** The names of the three files of a participant (experiment, lines 99,
    244 and 306). *)
Definition participant_info_file (ID : string) : string :=
  append ID "_participant_info.csv".

Definition training_phase_file (ID : string) : string :=
  append ID "_training_phase.csv".

Definition test_phase_file (ID : string) : string :=
  append ID "_test_phase.csv".

(** What the loop of the analysis does with a file of the data folder
    (analysis, lines 48-67). *)
Inductive file_use : Type :=
| ToTrainingData
| ToTestData
| NotRead.

Definition use_of_file (file : string) : file_use :=
  if endswith file "_training_phase.csv" then ToTrainingData
  else if endswith file "_test_phase.csv" then ToTestData
  else NotRead.

(** [data[data["accuracy"] == 1]] on the training rows (analysis, lines 77
    and 107). *)
Definition correct_rows (rows : list Training.TrialRecord) : list Training.TrialRecord :=
  filter (fun r => (Training.rec_accuracy r =? 1)%Z) rows.

(** [data[data["accuracy"] == 1]] on the test rows (analysis, lines 83 and
    111). *)
Definition correct_test_rows (rows : list Test.TrialRecord) : list Test.TrialRecord :=
  filter (fun r => (Test.rec_accuracy r =? 1)%Z) rows.

(** [data[data["block"] == b]]. *)
Definition rows_of_block (b : Z) (rows : list Training.TrialRecord)
  : list Training.TrialRecord :=
  filter (fun r => (Training.rec_block r =? b)%Z) rows.

(** The block and stimulus of a row. *)
Definition row_key (r : Training.TrialRecord) : Z * string :=
  (Training.rec_block r, Training.rec_stimulus r).

(** The stimulus and label of a test row. *)
Definition test_row_key (r : Test.TrialRecord) : string * Z :=
  (Test.rec_stimulus r, Test.rec_grammar_rule r).

(** The name of the key that types the character [c]: key names are in
    lower case. *)
Definition key_of_char (c : ascii) : string := String (lower_char c) EmptyString.

(** A participant who types [stim] character by character and then presses
    'return', all polled in one batch at time [t]. *)
Definition keys_for (stim : string) (t : Q) : list key_event :=
  map (fun c => (key_of_char c, t)) (list_ascii_of_string stim) ++ [("return", t)].

(** The key event carries a one-character key name. *)
Definition types_char (e : key_event) : Prop := String.length (fst e) = 1%nat.

(** The key event is a 'backspace'. *)
Definition deletes (e : key_event) : Prop := fst e = "backspace".

End Session.

(** ** Scenarios of the specification, run on the model *)

Module Scenarios.
Import PyStr.

(** The keys of [w] followed by 'return', all polled in one batch at time [t]. *)
Definition type_word (w : list string) (t : Q) : list key_event :=
  map (fun k => (k, t)) w ++ [("return", t)].

(** Block 1 of the example of the specification: "PELSO" typed correctly,
    then "VOTEV" and "VOTEB" typed for "VOTEB". *)
Definition block1_queue : list (Z * string) := [(1%Z, "PELSO"); (1%Z, "VOTEB")].

Definition block1_batches : list (list key_event) :=
  [type_word ["p"; "e"; "l"; "s"; "o"] 1;
   [("v", 1%Q); ("o", 1%Q)]; [];
   type_word ["t"; "e"; "v"] 2;
   type_word ["v"; "o"; "t"; "e"; "b"] 3].

Example block1_accuracies :
  map Training.rec_accuracy
      (Training.results_training_phase
         (Training.training_run
            (Training.training_init [(1%Z, "PELSO"); (1%Z, "VOTEB")])
            [type_word ["p"; "e"; "l"; "s"; "o"] 1;
             [("v", 1%Q); ("o", 1%Q)]; [];
             type_word ["t"; "e"; "v"] 2;
             type_word ["v"; "o"; "t"; "e"; "b"] 3]))
  = [1%Z; 0%Z; 1%Z].
Proof. reflexivity. Qed.

Example test_item_pressed :
  Test.test_trial ("PELSOT", 1%Z) (Some [("f", 23 # 10)])
  = Test.MkRecord "PELSOT" 1 (Some "F") "F" 1 (Some (23 # 10)).
Proof. reflexivity. Qed.

Example test_item_timeout :
  Test.test_trial ("PELSOT", 1%Z) None
  = Test.MkRecord "PELSOT" 1 None "F" 0 None.
Proof. reflexivity. Qed.

Example strip_example : strip "  AB C " = "AB C".
Proof. reflexivity. Qed.

End Scenarios.

(** ** Facts about the string primitives *)

Module PyStrFacts.
Import PyStr.

Lemma upper_char_not_lower (c : ascii) : is_lower (upper_char c) = false.
Proof.
  destruct c as [b0 b1 b2 b3 b4 b5 b6 b7].
  destruct b0, b1, b2, b3, b4, b5, b6, b7; reflexivity.
Qed.

Lemma has_lower_upper (s : string) : has_lower (upper s) = false.
Proof.
  unfold has_lower, upper.
  induction s as [|c s IH]; cbn [map_chars any_char]; [reflexivity|].
  rewrite upper_char_not_lower. exact IH.
Qed.

Lemma any_char_append (p : ascii -> bool) (s1 s2 : string) :
  any_char p (append s1 s2) = any_char p s1 || any_char p s2.
Proof.
  induction s1 as [|c s1 IH]; simpl; [reflexivity|].
  rewrite IH. apply orb_assoc.
Qed.

Lemma join_cons (x : string) (l : list string) :
  join (x :: l) = append x (join l).
Proof.
  unfold join. destruct l as [|y l]; simpl.
  - induction x as [|c x IH]; simpl; [reflexivity|]. now rewrite <- IH.
  - reflexivity.
Qed.

Lemma append_assoc (s1 s2 s3 : string) :
  append (append s1 s2) s3 = append s1 (append s2 s3).
Proof. induction s1 as [|c s1 IH]; simpl; [reflexivity|]. now rewrite IH. Qed.

Lemma join_snoc (l : list string) (x : string) :
  join (l ++ [x]) = append (join l) x.
Proof.
  induction l as [|y l IH].
  - simpl. reflexivity.
  - change ((y :: l) ++ [x]) with (y :: (l ++ [x])).
    rewrite !join_cons, IH. symmetry. apply append_assoc.
Qed.

Lemma any_char_join (p : ascii -> bool) (l : list string) :
  Forall (fun s => any_char p s = false) l -> any_char p (join l) = false.
Proof.
  induction 1 as [|x l Hx Hl IH]; [reflexivity|].
  rewrite join_cons, any_char_append, Hx, IH. reflexivity.
Qed.

Lemma any_char_lstrip (p : ascii -> bool) (s : string) :
  any_char p s = false -> any_char p (lstrip s) = false.
Proof.
  induction s as [|c s IH]; simpl; [trivial|].
  intros H. apply orb_false_iff in H as [Hc Hs].
  destruct (isspace c); [auto|]. simpl. now rewrite Hc, Hs.
Qed.

Lemma any_char_rstrip (p : ascii -> bool) (s : string) :
  any_char p s = false -> any_char p (rstrip s) = false.
Proof.
  induction s as [|c s IH]; simpl; [trivial|].
  intros H. apply orb_false_iff in H as [Hc Hs].
  specialize (IH Hs).
  destruct (rstrip s) as [|d r].
  - destruct (isspace c); simpl; [reflexivity|]. now rewrite Hc.
  - simpl in *. now rewrite Hc, IH.
Qed.

Lemma any_char_strip (p : ascii -> bool) (s : string) :
  any_char p s = false -> any_char p (strip s) = false.
Proof. intros H. unfold strip. now apply any_char_rstrip, any_char_lstrip. Qed.

(** A string with a lower-case letter differs from every string without. *)
Lemma has_lower_neq (s t : string) :
  has_lower s = true -> has_lower t = false -> (s =? t) = false.
Proof.
  intros Hs Ht. apply String.eqb_neq. intros ->. congruence.
Qed.

Lemma Forall_removelast {A} (P : A -> Prop) (l : list A) :
  Forall P l -> Forall P (removelast l).
Proof.
  induction 1 as [|x l Hx Hl IH]; simpl; [constructor|].
  destruct l; [constructor|]. constructor; assumption.
Qed.

Lemma fold_left_invariant {A B} (f : A -> B -> A) (P : A -> Prop) :
  (forall a b, P a -> P (f a b)) ->
  forall l a, P a -> P (fold_left f l a).
Proof.
  intros Hf l. induction l as [|b l IH]; simpl; intros a Ha; [assumption|].
  apply IH, Hf, Ha.
Qed.

End PyStrFacts.

(** ** The training-phase engine *)

Module TrainingSpec.
Import PyStr PyStrFacts Training.

Lemma response_handle_key (v : loop_vars) (e : key_event) :
  response (handle_key v e) = response v && negb (fst e =? "return").
Proof.
  destruct e as [key time_]. unfold handle_key. simpl fst.
  destruct (key =? "return"); simpl; [now rewrite andb_false_r|].
  rewrite andb_true_r.
  destruct (key =? "backspace"); [destruct (trial v); reflexivity|].
  destruct (String.length key =? 1)%nat; reflexivity.
Qed.

Lemma response_handle_batch (keys : list key_event) (v : loop_vars) :
  response (handle_batch v keys) = response v && negb (commits keys).
Proof.
  unfold handle_batch.
  revert v. induction keys as [|e keys IH]; intros v; simpl.
  - now rewrite andb_true_r.
  - rewrite IH, response_handle_key.
    rewrite negb_orb. symmetry. apply andb_assoc.
Qed.

(** The flag [response] is only cleared together with an assignment to [RT]. *)
Lemma RT_set_when_committed (keys : list key_event) (v : loop_vars) :
  response v = true \/ RT v <> None ->
  response (handle_batch v keys) = true \/ RT (handle_batch v keys) <> None.
Proof.
  apply (fold_left_invariant handle_key
           (fun v => response v = true \/ RT v <> None)).
  clear. intros v [key time_] H. unfold handle_key.
  destruct (key =? "return"); [right; discriminate|].
  destruct (key =? "backspace"); [destruct (trial v); exact H|].
  destruct (String.length key =? 1)%nat; exact H.
Qed.

(** The buffer after an event depends on the buffer before it only. *)
Lemma trial_handle_key (v v' : loop_vars) (e : key_event) :
  trial v = trial v' -> trial (handle_key v e) = trial (handle_key v' e).
Proof.
  destruct e as [key time_]. unfold handle_key. intros H.
  destruct (key =? "return"); [exact H|].
  destruct (key =? "backspace").
  - destruct (trial v) eqn:E, (trial v') eqn:E'; try congruence.
    cbn [trial]. now rewrite H.
  - destruct (String.length key =? 1)%nat; simpl; [now rewrite H | exact H].
Qed.

Lemma trial_handle_batch (keys : list key_event) (v v' : loop_vars) :
  trial v = trial v' -> trial (handle_batch v keys) = trial (handle_batch v' keys).
Proof.
  unfold handle_batch.
  revert v v'. induction keys as [|e keys IH]; intros v v' H; simpl; [exact H|].
  apply IH, trial_handle_key, H.
Qed.

Lemma no_lower_handle_batch (keys : list key_event) (v : loop_vars) :
  Forall no_lower (trial v) -> Forall no_lower (trial (handle_batch v keys)).
Proof.
  apply (fold_left_invariant handle_key (fun v => Forall no_lower (trial v))).
  clear. intros v [key time_] H. unfold handle_key.
  destruct (key =? "return"); [exact H|].
  destruct (key =? "backspace").
  - destruct (trial v) eqn:E; [now rewrite E|]. cbn [trial].
    apply Forall_removelast. exact H.
  - destruct (String.length key =? 1)%nat; [|exact H]. simpl.
    apply Forall_app. split; [exact H|].
    constructor; [apply has_lower_upper | constructor].
Qed.

Lemma training_step_polling (s : state) (keys : list key_event) :
  commits keys = false ->
  let v := handle_batch (LoopVars (st_trial s) (st_RT s) true) keys in
  training_step s keys =
    match st_queue s with
    | [] => s
    | _ :: _ => MkState (st_queue s) (trial v) (RT v)
                        (results_training_phase s) (training_csv s)
    end.
Proof.
  intros H v. unfold training_step. destruct (st_queue s) as [|[b stim] q]; [reflexivity|].
  fold v. assert (E : response v = true).
  { unfold v. rewrite response_handle_batch, H. reflexivity. }
  rewrite E. reflexivity.
Qed.

Lemma training_step_commit (s : state) (keys : list key_event)
      (b : Z) (stim : string) (q : list (Z * string)) :
  st_queue s = (b, stim) :: q ->
  commits keys = true ->
  let v := handle_batch (LoopVars (st_trial s) (st_RT s) true) keys in
  let results := results_training_phase s ++ [row_of b stim v] in
  training_step s keys =
    MkState (if stim =? strip (join (trial v)) then q else (b, stim) :: q)
            [] None results (Some results).
Proof.
  intros Hq H v results. unfold training_step. rewrite Hq.
  fold v. assert (E : response v = false).
  { unfold v. rewrite response_handle_batch, H. reflexivity. }
  rewrite E. reflexivity.
Qed.

Lemma training_step_cases (s : state) (keys : list key_event) :
  (training_step s keys = s /\ st_queue s = []) \/
  (exists v, results_training_phase (training_step s keys) = results_training_phase s
             /\ training_csv (training_step s keys) = training_csv s
             /\ st_queue (training_step s keys) = st_queue s
             /\ st_trial (training_step s keys) = trial v
             /\ v = handle_batch (LoopVars (st_trial s) (st_RT s) true) keys
             /\ response v = true) \/
  (exists b stim q v,
      st_queue s = (b, stim) :: q
      /\ v = handle_batch (LoopVars (st_trial s) (st_RT s) true) keys
      /\ response v = false
      /\ training_step s keys =
           MkState (if stim =? strip (join (trial v)) then q else (b, stim) :: q)
                   [] None (results_training_phase s ++ [row_of b stim v])
                   (Some (results_training_phase s ++ [row_of b stim v]))).
Proof.
  destruct (st_queue s) as [|[b stim] q] eqn:Hq.
  - left. unfold training_step. rewrite Hq. auto.
  - destruct (commits keys) eqn:Hc.
    + right; right. exists b, stim, q. eexists. split; [reflexivity|].
      split; [reflexivity|]. split.
      * rewrite response_handle_batch, Hc. reflexivity.
      * apply training_step_commit; assumption.
    + right; left. eexists. rewrite (training_step_polling s keys Hc), Hq.
      simpl. repeat split. rewrite response_handle_batch, Hc. reflexivity.
Qed.

(** Invariants of the phase are proved step by step. *)
Lemma training_run_invariant (P : state -> Prop) :
  (forall s keys, P s -> P (training_step s keys)) ->
  forall batches s, P s -> P (training_run s batches).
Proof. intros H batches s. apply fold_left_invariant, H. Qed.

(** Every row ever appended is the row of an attempt that was committed
    (so its [RT] was assigned) on a buffer of upper-cased keys. *)
Lemma rows_invariant (P : TrialRecord -> Prop) :
  (forall b stim v,
      RT v <> None -> Forall no_lower (trial v) -> P (row_of b stim v)) ->
  forall queue batches,
    let s := training_run (training_init queue) batches in
    Forall no_lower (st_trial s) /\ Forall P (results_training_phase s).
Proof.
  intros HP queue batches.
  apply (training_run_invariant
           (fun s => Forall no_lower (st_trial s)
                     /\ Forall P (results_training_phase s))).
  - clear queue batches. intros s keys [Ht Hr].
    pose proof (no_lower_handle_batch keys (LoopVars (st_trial s) (st_RT s) true) Ht) as Hv.
    pose proof (RT_set_when_committed keys (LoopVars (st_trial s) (st_RT s) true)
                  (or_introl eq_refl)) as Hrt.
    destruct (training_step_cases s keys)
      as [[E _] | [(v & E1 & _ & _ & E2 & Ev & _) | (b & stim & q & v & _ & Ev & Hresp & E)]].
    + rewrite E. split; assumption.
    + rewrite E1, E2, Ev. split; assumption.
    + rewrite E. simpl. split; [constructor|].
      apply Forall_app. split; [exact Hr|]. constructor; [|constructor].
      subst v. apply HP; [|exact Hv].
      destruct Hrt as [Hrt|Hrt]; [congruence | exact Hrt].
  - simpl. split; constructor.
Qed.

(** C1. For every training-phase attempt, the recorded accuracy is 1 if and
    only if the stimulus text is exactly equal to the participant's response
    buffer after trimming surrounding whitespace; otherwise it is 0. *)
Theorem C1_training_accuracy_iff_exact_match :
  forall (queue : list (Z * string)) (batches : list (list key_event))
         (r : TrialRecord),
    In r (results_training_phase (training_run (training_init queue) batches)) ->
    (rec_accuracy r = 1%Z <-> rec_stimulus r = strip (rec_participant_response r))
    /\ (rec_accuracy r = 0%Z <-> rec_stimulus r <> strip (rec_participant_response r)).
Proof.
  intros queue batches r Hin.
  pose proof (rows_invariant
                (fun r => rec_accuracy r =
                          if rec_stimulus r =? strip (rec_participant_response r)
                          then 1%Z else 0%Z)) as H.
  destruct (H (fun b stim v _ _ => eq_refl) queue batches) as [_ Hall].
  rewrite Forall_forall in Hall. specialize (Hall r Hin). rewrite Hall.
  destruct (String.eqb_spec (rec_stimulus r) (strip (rec_participant_response r))) as [E|E].
  - split; split; intros; try reflexivity; try assumption; try discriminate.
    contradiction.
  - split; split; intros; try reflexivity; try assumption; try discriminate.
    contradiction.
Qed.

(** C9. Every persisted training-phase record has a present reaction time:
    collection only ends on a commit event, which assigns it. *)
Theorem C9_training_reaction_time_present :
  forall (queue : list (Z * string)) (batches : list (list key_event))
         (r : TrialRecord),
    In r (results_training_phase (training_run (training_init queue) batches)) ->
    exists t : Q, rec_RT r = Some t.
Proof.
  intros queue batches r Hin.
  pose proof (rows_invariant (fun r => exists t : Q, rec_RT r = Some t)) as H.
  assert (HP : forall b stim v, RT v <> None -> Forall no_lower (trial v) ->
                                exists t : Q, rec_RT (row_of b stim v) = Some t).
  { intros b stim v Hrt _. simpl. destruct (RT v) as [t|]; [now exists t | contradiction]. }
  destruct (H HP queue batches) as [_ Hall].
  rewrite Forall_forall in Hall. exact (Hall r Hin).
Qed.

(** A stimulus with a lower-case letter is never matched by a buffer of
    upper-cased keys. *)
Lemma lower_case_stimulus_mismatch (stim : string) (v : loop_vars) :
  has_lower stim = true -> Forall no_lower (trial v) ->
  (stim =? strip (join (trial v))) = false.
Proof.
  intros Hs Hv. apply has_lower_neq; [exact Hs|].
  apply any_char_strip, any_char_join, Hv.
Qed.

(** From a state whose head stimulus has a lower-case letter, no batch
    moves the engine on. *)
Lemma stuck_on_lower_case (b : Z) (stim : string) (q : list (Z * string)) :
  has_lower stim = true ->
  forall (batches : list (list key_event)) (s : state),
    st_queue s = (b, stim) :: q -> Forall no_lower (st_trial s) ->
    st_queue (training_run s batches) = (b, stim) :: q.
Proof.
  intros Hlow batches s Hq Ht.
  assert (Inv : (fun s => st_queue s = (b, stim) :: q
                          /\ Forall no_lower (st_trial s))
                  (training_run s batches)).
  { apply training_run_invariant; [|auto].
    clear s Hq Ht. intros s keys [Hq Ht].
    pose proof (no_lower_handle_batch keys (LoopVars (st_trial s) (st_RT s) true) Ht) as Hv.
    destruct (training_step_cases s keys)
      as [[E _] | [(v & _ & _ & E3 & E2 & Ev & _) | (b' & stim' & q' & v & Hq' & Ev & _ & E)]].
    - rewrite E. auto.
    - rewrite E2, E3, Ev. auto.
    - rewrite Hq in Hq'. injection Hq' as <- <- <-. subst v.
      rewrite E. cbn [st_queue st_trial].
      rewrite (lower_case_stimulus_mismatch stim _ Hlow Hv).
      split; [reflexivity | constructor]. }
  exact (proj1 Inv).
Qed.

(** A stimulus with a lower-case letter, wherever it stands in the queue, is
    never passed: the queue always ends with it and what follows it. *)
Lemma never_past_lower_case (b : Z) (stim : string) (q : list (Z * string)) :
  has_lower stim = true ->
  forall (batches : list (list key_event)) (s : state),
    (exists pending, st_queue s = pending ++ (b, stim) :: q) ->
    Forall no_lower (st_trial s) ->
    exists pending, st_queue (training_run s batches) = pending ++ (b, stim) :: q.
Proof.
  intros Hlow batches s Hq Ht.
  assert (Inv : (fun s => (exists pending, st_queue s = pending ++ (b, stim) :: q)
                          /\ Forall no_lower (st_trial s))
                  (training_run s batches)).
  { apply training_run_invariant; [|auto].
    clear s Hq Ht. intros s keys [[pending Hq] Ht].
    pose proof (no_lower_handle_batch keys (LoopVars (st_trial s) (st_RT s) true) Ht) as Hv.
    destruct (training_step_cases s keys)
      as [[E _] | [(v & _ & _ & E3 & E2 & Ev & _) | (b' & stim' & q' & v & Hq' & Ev & _ & E)]].
    - rewrite E. eauto.
    - rewrite E2, E3, Ev. eauto.
    - rewrite E. cbn [st_queue st_trial]. split; [|constructor].
      rewrite Hq in Hq'. subst v. destruct pending as [|p pending].
      + simpl in Hq'. injection Hq' as <- <- <-.
        rewrite (lower_case_stimulus_mismatch stim _ Hlow Hv). now exists [].
      + simpl in Hq'. injection Hq' as -> <-.
        destruct (stim' =? strip _);
          [now exists pending | now exists ((b', stim') :: pending)]. }
  exact (proj1 Inv).
Qed.

(** C10. The response buffer never contains a lower-case letter, whatever
    the input events; hence a stimulus that contains a lower-case letter is
    never typed correctly, wherever it stands in the queue: every row recorded
    for it has accuracy 0, the engine never gets past it, and once it is on
    screen no further input moves the engine on. *)
Theorem C10_buffer_never_lower_case :
  forall (queue : list (Z * string)) (batches : list (list key_event)),
    let s := training_run (training_init queue) batches in
    has_lower (join (st_trial s)) = false
    /\ Forall (fun r => has_lower (rec_participant_response r) = false)
              (results_training_phase s)
    /\ (forall b stim q,
           queue = (b, stim) :: q -> has_lower stim = true ->
           st_queue s = queue
           /\ Forall (fun r => rec_accuracy r = 0%Z) (results_training_phase s))
    /\ Forall (fun r => has_lower (rec_stimulus r) = true -> rec_accuracy r = 0%Z)
              (results_training_phase s)
    /\ (forall before b stim q,
           queue = before ++ (b, stim) :: q -> has_lower stim = true ->
           exists pending, st_queue s = pending ++ (b, stim) :: q)
    /\ (forall b stim q more,
           st_queue s = (b, stim) :: q -> has_lower stim = true ->
           st_queue (training_run s more) = (b, stim) :: q).
Proof.
  intros queue batches s.
  pose proof (rows_invariant
                (fun r => has_lower (rec_participant_response r) = false
                          /\ (has_lower (rec_stimulus r) = true ->
                              rec_accuracy r = 0%Z))) as H.
  assert (HP : forall b stim v,
             RT v <> None -> Forall no_lower (trial v) ->
             has_lower (rec_participant_response (row_of b stim v)) = false
             /\ (has_lower (rec_stimulus (row_of b stim v)) = true ->
                 rec_accuracy (row_of b stim v) = 0%Z)).
  { intros b stim v _ Hv. split; [exact (any_char_join is_lower (trial v) Hv)|].
    unfold row_of. cbn [rec_stimulus rec_accuracy]. intros Hlow.
    now rewrite (lower_case_stimulus_mismatch stim v Hlow Hv). }
  destruct (H HP queue batches) as [Ht Hr]. fold s in Ht, Hr. clear H HP.
  assert (Hlast : forall before b stim q,
             queue = before ++ (b, stim) :: q -> has_lower stim = true ->
             exists pending, st_queue s = pending ++ (b, stim) :: q).
  { intros before b stim q -> Hlow.
    apply (never_past_lower_case b stim q Hlow); [now exists before | constructor]. }
  split; [apply any_char_join; exact Ht|].
  split; [eapply Forall_impl; [|exact Hr]; intros r [Hr1 _]; exact Hr1|].
  split; [|split; [|split]].
  - intros b stim q -> Hlow. split.
    + apply (stuck_on_lower_case b stim q Hlow); [reflexivity | constructor].
    + assert (Inv : (fun s => (st_queue s = (b, stim) :: q
                               /\ Forall no_lower (st_trial s))
                              /\ Forall (fun r => rec_accuracy r = 0%Z)
                                        (results_training_phase s))
                      (training_run (training_init ((b, stim) :: q)) batches)).
      { apply training_run_invariant.
        - intros s0 keys [[Hq0 Ht0] Hr0].
          pose proof (no_lower_handle_batch keys
                        (LoopVars (st_trial s0) (st_RT s0) true) Ht0) as Hv.
          destruct (training_step_cases s0 keys)
            as [[E _] | [(v & E1 & _ & E3 & E2 & Ev & _)
                        | (b' & stim' & q' & v & Hq' & Ev & _ & E)]].
          + rewrite E. auto.
          + rewrite E1, E2, E3, Ev. auto.
          + rewrite Hq0 in Hq'. injection Hq' as <- <- <-. subst v.
            rewrite E. unfold row_of. simpl.
            rewrite (lower_case_stimulus_mismatch stim _ Hlow Hv).
            split; [split; [reflexivity | constructor]|].
            apply Forall_app. split; [exact Hr0|].
            constructor; [reflexivity | constructor].
        - simpl. repeat split; constructor. }
      exact (proj2 Inv).
  - eapply Forall_impl; [|exact Hr]. intros r [_ Hr2]. exact Hr2.
  - exact Hlast.
  - intros b stim q more Hq Hlow.
    apply (stuck_on_lower_case b stim q Hlow); assumption.
Qed.

(** Failed attempts leave the engine on the same stimulus, as many of them as
    there are. *)
Lemma retry_unbounded (b : Z) (stim : string) (q : list (Z * string))
      (attempts : list (list key_event)) :
  forall results csv,
    Forall (fun keys => commits keys = true
                        /\ stim <> strip (attempt_response keys)) attempts ->
    let s' := training_run (MkState ((b, stim) :: q) [] None results csv) attempts in
    st_queue s' = (b, stim) :: q
    /\ results_training_phase s' =
         results ++ map (fun keys => row_of b stim (handle_batch fresh keys)) attempts.
Proof.
  induction attempts as [|keys attempts IH]; intros results csv Hall.
  - simpl. rewrite app_nil_r. auto.
  - inversion Hall as [|? ? [Hc Hne] Hall']; subst.
    unfold training_run. cbn [fold_left].
    rewrite (training_step_commit (MkState ((b, stim) :: q) [] None results csv)
               keys b stim q eq_refl Hc).
    cbn [st_trial st_RT results_training_phase].
    fold fresh. apply String.eqb_neq in Hne.
    unfold attempt_response in Hne. rewrite Hne.
    specialize (IH (results ++ [row_of b stim (handle_batch fresh keys)])
                   (Some (results ++ [row_of b stim (handle_batch fresh keys)])) Hall').
    unfold training_run in IH. cbn zeta in IH. destruct IH as [IHq IHr].
    split; [exact IHq|]. rewrite IHr, <- app_assoc. reflexivity.
Qed.

(** C3. One record is appended per attempt (an attempt ends with the batch
    that holds the commit event); after an attempt with accuracy 0 the same
    stimulus stays at the head of the queue and is presented again, after the
    first attempt with accuracy 1 the engine moves to the next one; any number
    of failed attempts is followed by yet another presentation. *)
Theorem C3_one_record_per_attempt_repeat_until_correct :
  forall (s : state) (b : Z) (stim : string) (q : list (Z * string)),
    st_queue s = (b, stim) :: q ->
    (forall keys, commits keys = false ->
        results_training_phase (training_step s keys) = results_training_phase s
        /\ st_queue (training_step s keys) = (b, stim) :: q)
    /\ (forall keys, commits keys = true ->
        exists r,
          results_training_phase (training_step s keys)
            = results_training_phase s ++ [r]
          /\ rec_block r = b /\ rec_stimulus r = stim
          /\ st_trial (training_step s keys) = []
          /\ ((rec_accuracy r = 0%Z /\ st_queue (training_step s keys) = (b, stim) :: q)
              \/ (rec_accuracy r = 1%Z /\ st_queue (training_step s keys) = q)))
    /\ (forall attempts,
        st_trial s = [] -> st_RT s = None ->
        Forall (fun keys => commits keys = true
                            /\ stim <> strip (attempt_response keys)) attempts ->
        exists rows,
          results_training_phase (training_run s attempts)
            = results_training_phase s ++ rows
          /\ length rows = length attempts
          /\ Forall (fun r => rec_accuracy r = 0%Z /\ rec_stimulus r = stim) rows
          /\ st_queue (training_run s attempts) = (b, stim) :: q).
Proof.
  intros s b stim q Hq. split; [|split].
  - intros keys Hc. rewrite (training_step_polling s keys Hc), Hq. simpl.
    auto.
  - intros keys Hc. rewrite (training_step_commit s keys b stim q Hq Hc).
    eexists. cbn [results_training_phase st_queue st_trial].
    split; [reflexivity|]. split; [reflexivity|]. split; [reflexivity|].
    split; [reflexivity|]. unfold row_of. cbn [rec_accuracy].
    destruct (stim =? strip _); [right | left]; auto.
  - intros attempts Ht Hrt Hall. destruct s as [qu tr rt res csv].
    simpl in Hq, Ht, Hrt. subst qu tr rt.
    destruct (retry_unbounded b stim q attempts res csv Hall) as [E1 E2].
    eexists. cbn [results_training_phase]. split; [exact E2|].
    split; [apply length_map|]. split; [|exact E1].
    clear E1 E2. induction Hall as [|keys attempts [_ Hne] _ IH]; [constructor|].
    cbn [map]. constructor; [|exact IH]. split; [|reflexivity].
    apply String.eqb_neq in Hne. unfold attempt_response in Hne.
    unfold row_of. cbn [rec_accuracy]. now rewrite Hne.
Qed.

(** C8. Effect of a non-commit event on the response buffer: 'backspace'
    removes the last appended key (nothing on an empty buffer), any other
    one-character key is upper-cased and appended, and any other key name
    leaves the buffer as it is. *)
Theorem C8_buffer_update_per_event :
  forall (v : loop_vars) (key : string) (time_ : Q),
    key <> "return" ->
    let v' := handle_key v (key, time_) in
    RT v' = RT v /\ response v' = response v
    /\ (key = "backspace" ->
        trial v' = removelast (trial v)
        /\ (trial v = [] -> trial v' = [])
        /\ (forall t x, trial v = t ++ [x] ->
                        trial v' = t /\ join (trial v) = append (join (trial v')) x))
    /\ (key <> "backspace" -> String.length key = 1%nat ->
        trial v' = trial v ++ [upper key]
        /\ join (trial v') = append (join (trial v)) (upper key)
        /\ String.length (upper key) = 1%nat)
    /\ (key <> "backspace" -> String.length key <> 1%nat ->
        trial v' = trial v).
Proof.
  intros v key time_ Hret v'. subst v'. unfold handle_key.
  apply String.eqb_neq in Hret. rewrite Hret.
  destruct (String.eqb_spec key "backspace") as [Hb|Hb].
  - assert (E : trial (match trial v with
                       | [] => v
                       | _ :: _ => LoopVars (removelast (trial v)) (RT v) (response v)
                       end) = removelast (trial v)).
    { destruct (trial v) eqn:Et; [now rewrite Et | reflexivity]. }
    split; [destruct (trial v); reflexivity|].
    split; [destruct (trial v); reflexivity|].
    split; [|split; intros; contradiction].
    intros _. rewrite E. split; [reflexivity|]. split.
    + intros ->. reflexivity.
    + intros t x ->. rewrite removelast_last. split; [reflexivity|].
      apply join_snoc.
  - destruct (Nat.eqb_spec (String.length key) 1) as [Hl|Hl].
    + split; [reflexivity|]. split; [reflexivity|].
      split; [intros; contradiction|]. split; [|intros; contradiction].
      intros _ _. cbn [trial]. split; [reflexivity|]. split; [apply join_snoc|].
      destruct key as [|c [|d key]]; simpl in Hl; try discriminate. reflexivity.
    + split; [reflexivity|]. split; [reflexivity|].
      split; [intros; contradiction|]. split; [intros; contradiction|].
      reflexivity.
Qed.

(** A commit that is the last event of its batch ends the collection with
    the buffer typed before it and its own time stamp. *)
Lemma commit_last_event (v : loop_vars) (before : list key_event) (t : Q) :
  handle_batch v (before ++ [("return", t)])
  = LoopVars (trial (handle_batch v before)) (Some t) false.
Proof. unfold handle_batch. rewrite fold_left_app. reflexivity. Qed.

(** The rows are only ever appended to. *)
Lemma results_append_only (batches : list (list key_event)) (s : state) :
  exists rows,
    results_training_phase (training_run s batches) = results_training_phase s ++ rows.
Proof.
  revert s. induction batches as [|keys batches IH]; intros s.
  - exists []. simpl. now rewrite app_nil_r.
  - unfold training_run in *. cbn [fold_left].
    destruct (IH (training_step s keys)) as [rows E]. rewrite E.
    destruct (training_step_cases s keys)
      as [[E1 _] | [(v & E1 & _) | (b & stim & q & v & _ & _ & _ & E1)]];
      rewrite E1.
    + now exists rows.
    + now exists rows.
    + eexists. cbn [results_training_phase]. rewrite <- app_assoc. reflexivity.
Qed.

(** The training file holds every row as soon as the attempt is over
    (lines 243-244 are inside the attempt loop). *)
Lemma training_csv_written_each_attempt (s : state) (keys : list key_event)
      (b : Z) (stim : string) (q : list (Z * string)) :
  st_queue s = (b, stim) :: q -> commits keys = true ->
  training_csv (training_step s keys)
  = Some (results_training_phase (training_step s keys))
  /\ length (results_training_phase (training_step s keys))
     = S (length (results_training_phase s)).
Proof.
  intros Hq Hc. rewrite (training_step_commit s keys b stim q Hq Hc).
  cbn [training_csv results_training_phase]. split; [reflexivity|].
  rewrite length_app. simpl. lia.
Qed.

(** C4. A commit event followed by other events in the same polled batch:
    the [for] loop goes on after 'return', so the key typed after it is added
    to the buffer that is evaluated (here "AB" against the stimulus "A", which
    the buffer matched when the commit event arrived), and a second 'return'
    of the batch overwrites the reaction time of the first one. *)
Theorem C4_events_after_commit_in_batch_are_applied :
  let keys := [("a", 1 # 2); ("return", 1); ("b", 11 # 10)] in
  let s := training_step (training_init [(1%Z, "A")]) keys in
  trial (handle_batch fresh [("a", 1 # 2); ("return", 1)]) = ["A"]
  /\ trial (handle_batch fresh keys) = ["A"; "B"]
  /\ results_training_phase s = [MkRecord 1 "A" "AB" 0 (Some 1)]
  /\ st_queue s = [(1%Z, "A")]
  /\ RT (handle_batch fresh [("return", 1); ("return", 2)]) = Some 2.
Proof. repeat split. Qed.

(** *** The statements at the example of the specification *)

Lemma C1_training_accuracy_witness :
  let r := MkRecord 1 "VOTEB" "VOTEV" 0 (Some 2%Q) in
  In r (results_training_phase
          (training_run (training_init Scenarios.block1_queue)
                        Scenarios.block1_batches))
  /\ (rec_accuracy r = 1%Z <-> rec_stimulus r = strip (rec_participant_response r))
  /\ (rec_accuracy r = 0%Z <-> rec_stimulus r <> strip (rec_participant_response r)).
Proof.
  intros r.
  assert (H : In r (results_training_phase
                      (training_run (training_init Scenarios.block1_queue)
                                    Scenarios.block1_batches))).
  { vm_compute. right. left. reflexivity. }
  exact (conj H (C1_training_accuracy_iff_exact_match _ _ r H)).
Defined.

Lemma C9_training_reaction_time_witness :
  let r := MkRecord 1 "VOTEB" "VOTEB" 1 (Some 3%Q) in
  In r (results_training_phase
          (training_run (training_init Scenarios.block1_queue)
                        Scenarios.block1_batches))
  /\ exists t : Q, rec_RT r = Some t.
Proof.
  intros r.
  assert (H : In r (results_training_phase
                      (training_run (training_init Scenarios.block1_queue)
                                    Scenarios.block1_batches))).
  { vm_compute. right. right. left. reflexivity. }
  exact (conj H (C9_training_reaction_time_present _ _ r H)).
Defined.

Lemma C10_lower_case_stimulus_witness :
  let queue := [(1%Z, "PELSO"); (1%Z, "Voteb"); (1%Z, "VOTEB")] in
  let s := training_run (training_init queue)
             [Scenarios.type_word ["p"; "e"; "l"; "s"; "o"] 1;
              Scenarios.type_word ["v"; "o"; "t"; "e"; "b"] 2;
              Scenarios.type_word ["V"; "o"; "t"; "e"; "b"] 3] in
  has_lower "Voteb" = true
  /\ map rec_accuracy (results_training_phase s) = [1%Z; 0%Z; 0%Z]
  /\ Forall (fun r => has_lower (rec_stimulus r) = true -> rec_accuracy r = 0%Z)
            (results_training_phase s)
  /\ (exists pending, st_queue s = pending ++ (1%Z, "Voteb") :: [(1%Z, "VOTEB")])
  /\ st_queue (training_run s [Scenarios.type_word ["v"; "o"; "t"; "e"; "b"] 4])
     = (1%Z, "Voteb") :: [(1%Z, "VOTEB")].
Proof.
  intros queue s. split; [reflexivity|]. split; [reflexivity|].
  destruct (C10_buffer_never_lower_case queue
              [Scenarios.type_word ["p"; "e"; "l"; "s"; "o"] 1;
               Scenarios.type_word ["v"; "o"; "t"; "e"; "b"] 2;
               Scenarios.type_word ["V"; "o"; "t"; "e"; "b"] 3])
    as (_ & _ & _ & Hrows & Hpast & Hstuck).
  split; [exact Hrows|]. split.
  - exact (Hpast [(1%Z, "PELSO")] 1%Z "Voteb" [(1%Z, "VOTEB")] eq_refl eq_refl).
  - exact (Hstuck 1%Z "Voteb" [(1%Z, "VOTEB")] _ eq_refl eq_refl).
Defined.

Lemma C3_failed_attempt_witness :
  let s := training_init [(1%Z, "VOTEB"); (1%Z, "PELSO")] in
  let keys := Scenarios.type_word ["v"; "o"; "t"; "e"; "v"] 2 in
  st_queue s = (1%Z, "VOTEB") :: [(1%Z, "PELSO")]
  /\ commits keys = true
  /\ exists r,
       results_training_phase (training_step s keys)
         = results_training_phase s ++ [r]
       /\ rec_block r = 1%Z /\ rec_stimulus r = "VOTEB"
       /\ st_trial (training_step s keys) = []
       /\ ((rec_accuracy r = 0%Z
            /\ st_queue (training_step s keys) = (1%Z, "VOTEB") :: [(1%Z, "PELSO")])
           \/ (rec_accuracy r = 1%Z
               /\ st_queue (training_step s keys) = [(1%Z, "PELSO")])).
Proof.
  intros s keys. split; [reflexivity|]. split; [reflexivity|].
  exact (proj1 (proj2 (C3_one_record_per_attempt_repeat_until_correct
                         s 1%Z "VOTEB" [(1%Z, "PELSO")] eq_refl))
               keys eq_refl).
Defined.

Lemma C8_append_upper_witness :
  "b" <> "return"
  /\ trial (handle_key (LoopVars ["A"] None true) ("b", 1%Q)) = ["A"; "B"]
  /\ trial (handle_key (LoopVars ["A"; "B"] None true) ("backspace", 1%Q)) = ["A"]
  /\ trial (handle_key (LoopVars ["A"] None true) ("space", 1%Q)) = ["A"].
Proof.
  assert (Hb : "b" <> "return") by discriminate.
  assert (Hd : "backspace" <> "return") by discriminate.
  assert (Hs : "space" <> "return") by discriminate.
  split; [exact Hb|]. split; [|split].
  - destruct (C8_buffer_update_per_event (LoopVars ["A"] None true) "b" 1%Q Hb)
      as (_ & _ & _ & H & _).
    refine (proj1 (H _ eq_refl)). discriminate.
  - destruct (C8_buffer_update_per_event (LoopVars ["A"; "B"] None true) "backspace" 1%Q Hd)
      as (_ & _ & H & _).
    exact (proj1 (H eq_refl)).
  - destruct (C8_buffer_update_per_event (LoopVars ["A"] None true) "space" 1%Q Hs)
      as (_ & _ & _ & _ & H).
    refine (H _ _); discriminate.
Defined.

End TrainingSpec.

(** ** The test-phase engine *)

Module TestSpec.
Import PyStr PyStrFacts Test.

(** The key that line 280 or 287 selects. *)
Lemma correct_key_of_label (stim : string) (label : Z)
      (key_response : option (list key_event)) :
  rec_correct_key (test_trial (stim, label) key_response)
  = if (label =? 0)%Z then "J" else "F".
Proof.
  unfold test_trial.
  destruct (label =? 0)%Z; destruct key_response as [[|[key t] rest]|]; reflexivity.
Qed.

(** Upper-casing an accepted key gives one of the two options. *)
Lemma accepted_key_upper (e : key_event) :
  in_window e = true -> upper (fst e) = "J" \/ upper (fst e) = "F".
Proof.
  unfold in_window. intros H.
  apply andb_true_iff in H as [H _]. apply andb_true_iff in H as [H _].
  apply existsb_exists in H as [k [Hin Hk]].
  apply String.eqb_eq in Hk. rewrite Hk.
  simpl in Hin. destruct Hin as [<-|[<-|[<-|[<-|[]]]]]; auto.
Qed.

(** The two outcomes of a trial. *)
Lemma test_trial_no_response (stim : string) (label : Z)
      (key_response : option (list key_event)) :
  key_response = None \/ key_response = Some [] ->
  test_trial (stim, label) key_response
  = MkRecord stim label None (if (label =? 0)%Z then "J" else "F") 0 None.
Proof.
  intros [-> | ->]; unfold test_trial; destruct (label =? 0)%Z; reflexivity.
Qed.

Lemma test_trial_captured (stim : string) (label : Z)
      (key : string) (t : Q) (rest : list key_event) :
  test_trial (stim, label) (Some ((key, t) :: rest))
  = let correct_key := if (label =? 0)%Z then "J" else "F" in
    MkRecord stim label (Some (upper key)) correct_key
             (if upper key =? correct_key then 1%Z else 0%Z) (Some t).
Proof. unfold test_trial; destruct (label =? 0)%Z; reflexivity. Qed.

(** C2. Test-phase accuracy is 1 exactly when a key was captured and its
    upper-case form is the key selected by the item's rule label ("J" for
    label 0, "F" otherwise); a wrong key and no response both give 0, and the
    record tells them apart: [key_pressed] holds the upper-cased key that was
    pressed, or nothing. *)
Theorem C2_test_accuracy_iff_captured_key_correct :
  forall (stim : string) (label : Z) (key_response : option (list key_event)),
    let r := test_trial (stim, label) key_response in
    let selected := if (label =? 0)%Z then "J" else "F" in
    rec_correct_key r = selected
    /\ rec_grammar_rule r = label
    /\ (rec_accuracy r = 1%Z <->
          exists key t rest,
            key_response = Some ((key, t) :: rest) /\ upper key = selected)
    /\ (rec_accuracy r = 1%Z \/ rec_accuracy r = 0%Z)
    /\ (rec_key_pressed r = None <->
          key_response = None \/ key_response = Some [])
    /\ (rec_key_pressed r = None -> rec_accuracy r = 0%Z)
    /\ (forall key t rest,
           key_response = Some ((key, t) :: rest) ->
           rec_key_pressed r = Some (upper key)
           /\ (upper key = selected -> rec_accuracy r = 1%Z)
           /\ (upper key <> selected -> rec_accuracy r = 0%Z)
           /\ (in_window (key, t) = true ->
               rec_key_pressed r = Some "J" \/ rec_key_pressed r = Some "F")).
Proof.
  intros stim label key_response r selected.
  assert (Hcases : (key_response = None \/ key_response = Some [])
                   \/ exists key t rest, key_response = Some ((key, t) :: rest)).
  { destruct key_response as [[|[key t] rest]|]; eauto 6. }
  destruct Hcases as [Habs | (key & t & rest & ->)].
  - subst r. rewrite (test_trial_no_response stim label key_response Habs).
    cbn [rec_accuracy rec_key_pressed rec_correct_key rec_grammar_rule].
    split; [reflexivity|]. split; [reflexivity|].
    split; [split; [discriminate|]|].
    { intros (k & t & rest & E & _). destruct Habs; congruence. }
    split; [now right|]. split; [tauto|]. split; [reflexivity|].
    intros k t rest E. destruct Habs; congruence.
  - subst r. rewrite test_trial_captured.
    cbn [rec_accuracy rec_key_pressed rec_correct_key rec_grammar_rule].
    fold selected.
    split; [reflexivity|]. split; [reflexivity|].
    destruct (String.eqb_spec (upper key) selected) as [E|E].
    + split; [split; [intros _; now exists key, t, rest | reflexivity]|].
      split; [now left|]. split; [split; [discriminate | intros [H|H]; discriminate]|].
      split; [discriminate|].
      intros k t' rest' H. injection H as <- <- _.
      split; [reflexivity|]. split; [reflexivity|]. split; [contradiction|].
      intros Hw. destruct (accepted_key_upper _ Hw) as [Hk|Hk];
        simpl fst in Hk; rewrite Hk; auto.
    + split; [split; [discriminate|]|].
      { intros (k & t' & rest' & H & Hk). injection H as <- _ _. contradiction. }
      split; [now right|]. split; [split; [discriminate | intros [H|H]; discriminate]|].
      split; [discriminate|].
      intros k t' rest' H. injection H as <- <- _.
      split; [reflexivity|]. split; [contradiction|]. split; [reflexivity|].
      intros Hw. destruct (accepted_key_upper _ Hw) as [Hk|Hk];
        simpl fst in Hk; rewrite Hk; auto.
Qed.

(** C6. The correct key follows a zero / non-zero split of the rule label:
    label 0 selects "J" and every other label value selects "F". *)
Theorem C6_correct_key_zero_vs_nonzero :
  forall (stim : string) (label : Z) (key_response : option (list key_event)),
    let r := test_trial (stim, label) key_response in
    (label = 0%Z -> rec_correct_key r = "J")
    /\ (label <> 0%Z -> rec_correct_key r = "F")
    /\ rec_grammar_rule r = label.
Proof.
  intros stim label key_response r. subst r.
  rewrite correct_key_of_label.
  destruct (Z.eqb_spec label 0) as [E|E].
  - split; [reflexivity|]. split; [contradiction|].
    unfold test_trial. destruct (label =? 0)%Z;
      destruct key_response as [[|[key t] rest]|]; reflexivity.
  - split; [contradiction|]. split; [reflexivity|].
    unfold test_trial. destruct (label =? 0)%Z;
      destruct key_response as [[|[key t] rest]|]; reflexivity.
Qed.

(** C7. Provided the bounded wait only answers with accepted events of its
    window, the recorded reaction time is either absent or lies between 0 and
    the deadline of 6, and it is absent exactly when no accepted key arrived
    in the window. *)
Theorem C7_test_reaction_time_within_deadline :
  forall (row : string * Z) (arrived : list key_event)
         (key_response : option (list key_event)),
    wait_contract arrived key_response ->
    let r := test_trial row key_response in
    (rec_RT r = None \/ exists t : Q, rec_RT r = Some t /\ (0 <= t)%Q /\ (t <= 6)%Q)
    /\ (rec_RT r = None <-> forall e, In e arrived -> in_window e = false)
    /\ (rec_RT r = None <-> rec_key_pressed r = None).
Proof.
  intros [stim label] arrived key_response Hc r. subst r.
  destruct key_response as [[|[key t] rest]|]; simpl in Hc.
  - destruct Hc as [Hc _]. contradiction.
  - destruct Hc as [_ Hc]. destruct (Hc (key, t) (or_introl eq_refl)) as [Hin Hw].
    rewrite test_trial_captured. cbn [rec_RT rec_key_pressed].
    split.
    + right. exists t. split; [reflexivity|].
      unfold in_window in Hw. apply andb_true_iff in Hw as [Hw H6].
      apply andb_true_iff in Hw as [_ H0]. simpl snd in H0, H6.
      apply Qle_bool_iff in H0, H6. split; assumption.
    + split; (split; [discriminate|]); [|discriminate].
      intros H. specialize (H _ Hin). congruence.
  - rewrite (test_trial_no_response stim label None (or_introl eq_refl)).
    cbn [rec_RT rec_key_pressed]. split; [now left|].
    split; split; auto.
Qed.

(** The test file is not written while rows remain to be shown. *)
Lemma test_csv_unwritten_before_last_item
      (responses : list (option (list key_event))) :
  forall s : state,
    test_csv s = None ->
    (length responses < length (st_rows s))%nat ->
    test_csv (test_run s responses) = None.
Proof.
  induction responses as [|resp responses IH]; intros s Hcsv Hlen; [exact Hcsv|].
  unfold test_run in *. cbn [fold_left]. apply IH.
  - unfold test_step. destruct (st_rows s) as [|row rest]; [exact Hcsv|].
    cbn [test_csv]. simpl in Hlen.
    destruct rest as [|row' rest]; [simpl in Hlen; lia | exact Hcsv].
  - unfold test_step. destruct (st_rows s) as [|row rest]; simpl in *; lia.
Qed.

(** C5. The test-phase file is written by the statement after the loop
    only: with two items, once the first trial is over and its record is in
    [results_test_phase], nothing has been written; the file appears after the
    last trial.  The training phase writes its file at the end of every
    attempt. *)
Theorem C5_test_records_written_at_phase_end_only :
  let rows := [("PELSOT", 1%Z); ("VOTEBX", 0%Z)] in
  let s1 := test_run (test_init rows) [Some [("f", 23 # 10)]] in
  let s2 := test_run (test_init rows) [Some [("f", 23 # 10)]; None] in
  let t1 := Training.training_run
              (Training.training_init [(1%Z, "A"); (1%Z, "B")])
              [[("a", 1%Q); ("return", 2%Q)]] in
  results_test_phase s1 = [MkRecord "PELSOT" 1 (Some "F") "F" 1 (Some (23 # 10))]
  /\ st_rows s1 = [("VOTEBX", 0%Z)]
  /\ test_csv s1 = None
  /\ length (results_test_phase s2) = 2%nat
  /\ test_csv s2 = Some (results_test_phase s2)
  /\ Training.st_queue t1 = [(1%Z, "B")]
  /\ Training.training_csv t1 = Some [Training.MkRecord 1 "A" "A" 1 (Some 2%Q)].
Proof. repeat split. Qed.

(** *** The statements at the example of the specification *)

Lemma C2_test_accuracy_witness :
  let r := test_trial ("PELSOT", 1%Z) (Some [("j", 23 # 10)]) in
  rec_correct_key r = "F"
  /\ rec_key_pressed r = Some "J"
  /\ ("J" = "F" -> rec_accuracy r = 1%Z)
  /\ ("J" <> "F" -> rec_accuracy r = 0%Z)
  /\ (in_window ("j", 23 # 10) = true ->
      rec_key_pressed r = Some "J" \/ rec_key_pressed r = Some "F").
Proof.
  intros r.
  destruct (C2_test_accuracy_iff_captured_key_correct
              "PELSOT" 1%Z (Some [("j", 23 # 10)]))
    as (Hsel & _ & _ & _ & _ & _ & Hkey).
  exact (conj Hsel (Hkey "j" (23 # 10) [] eq_refl)).
Defined.

Lemma C6_nonzero_label_witness :
  2%Z <> 0%Z /\ rec_correct_key (test_trial ("PELSOT", 2%Z) None) = "F".
Proof.
  assert (H : 2%Z <> 0%Z) by discriminate.
  split; [exact H|].
  exact (proj1 (proj2 (C6_correct_key_zero_vs_nonzero "PELSOT" 2%Z None)) H).
Defined.

Lemma C7_test_reaction_time_witness :
  let arrived := [("x", 1%Q); ("f", 23 # 10); ("j", 7%Q)] in
  let key_response := Some [("f", 23 # 10)] in
  let r := test_trial ("PELSOT", 1%Z) key_response in
  wait_contract arrived key_response
  /\ (rec_RT r = None \/ exists t : Q, rec_RT r = Some t /\ (0 <= t)%Q /\ (t <= 6)%Q)
  /\ (rec_RT r = None <-> forall e, In e arrived -> in_window e = false)
  /\ (rec_RT r = None <-> rec_key_pressed r = None).
Proof.
  intros arrived key_response r.
  assert (H : wait_contract arrived key_response).
  { split; [discriminate|]. intros e [<-|[]].
    split; [right; left; reflexivity | reflexivity]. }
  exact (conj H (C7_test_reaction_time_within_deadline
                   ("PELSOT", 1%Z) arrived key_response H)).
Defined.

End TestSpec.

(** ** Stimulus loading and file names *)

Module LoadingSpec.
Import PyStr PyStrFacts Session.

Lemma rstrip_cons (c : ascii) (s : string) :
  rstrip (String c s)
  = match rstrip s with
    | EmptyString => if isspace c then EmptyString else String c EmptyString
    | r => String c r
    end.
Proof. reflexivity. Qed.

Lemma rstrip_idempotent (s : string) : rstrip (rstrip s) = rstrip s.
Proof.
  induction s as [|c s IH]; [reflexivity|].
  rewrite rstrip_cons. destruct (rstrip s) as [|d r] eqn:E.
  - destruct (isspace c) eqn:Ec; [reflexivity|].
    rewrite rstrip_cons. cbn [rstrip]. now rewrite Ec.
  - rewrite rstrip_cons, IH. reflexivity.
Qed.

Lemma lstrip_first (s : string) (c : ascii) :
  first_char (lstrip s) = Some c -> isspace c = false.
Proof.
  induction s as [|d s IH]; cbn [lstrip]; [discriminate|].
  destruct (isspace d) eqn:Ed; [exact IH|].
  cbn [first_char]. intros H. injection H as <-. exact Ed.
Qed.

Lemma lstrip_fixed (s : string) :
  (forall c, first_char s = Some c -> isspace c = false) -> lstrip s = s.
Proof.
  destruct s as [|d s]; [reflexivity|]. intros H. cbn [lstrip].
  now rewrite (H d eq_refl).
Qed.

Lemma rstrip_first (s : string) (c : ascii) :
  (forall d, first_char s = Some d -> isspace d = false) ->
  first_char (rstrip s) = Some c -> isspace c = false.
Proof.
  destruct s as [|d s]; [discriminate|]. intros H.
  specialize (H d eq_refl). rewrite rstrip_cons.
  destruct (rstrip s); [rewrite H|]; cbn [first_char];
    intros E; injection E as <-; exact H.
Qed.

Lemma rstrip_last (s : string) (c : ascii) :
  last_char (rstrip s) = Some c -> isspace c = false.
Proof.
  induction s as [|d s IH]; [discriminate|].
  rewrite rstrip_cons. destruct (rstrip s) as [|e r] eqn:E.
  - destruct (isspace d) eqn:Ed; [discriminate|].
    cbn [last_char]. intros H. injection H as <-. exact Ed.
  - exact IH.
Qed.

Lemma strip_idempotent (s : string) : strip (strip s) = strip s.
Proof.
  unfold strip. rewrite (lstrip_fixed (rstrip (lstrip s))).
  - apply rstrip_idempotent.
  - intros c. apply rstrip_first. intros d. apply lstrip_first.
Qed.

(** X10. Every loaded training stimulus is a fixed point of [strip]: it
    neither starts nor ends with a whitespace character; and no line is
    dropped, a blank line loads as the empty stimulus. *)
Theorem loaded_stimuli_are_stripped :
  forall (content : list string),
    length (load_training_stimuli content) = length content
    /\ Forall (fun stim =>
                 strip stim = stim
                 /\ (forall c, first_char stim = Some c -> isspace c = false)
                 /\ (forall c, last_char stim = Some c -> isspace c = false))
              (load_training_stimuli content).
Proof.
  intros content. split; [apply length_map|].
  unfold load_training_stimuli. apply Forall_map, Forall_forall.
  intros line _. split; [apply strip_idempotent|]. split.
  - intros c. unfold strip. apply rstrip_first. intros d. apply lstrip_first.
  - intros c. unfold strip. apply rstrip_last.
Qed.

(** [endswith] holds exactly of the strings [p ++ suffix]. *)
Lemma endswith_spec (s suffix : string) :
  endswith s suffix = true <-> exists p, s = append p suffix.
Proof.
  induction s as [|c s IH]; cbn [endswith].
  - rewrite orb_false_r. split.
    + intros H. apply String.eqb_eq in H. now exists "".
    + intros [[|d p] H]; simpl in H; [apply String.eqb_eq; exact H | discriminate].
  - rewrite orb_true_iff, IH. split.
    + intros [H | [p H]].
      * apply String.eqb_eq in H. now exists "".
      * exists (String c p). simpl. now rewrite H.
    + intros [[|d p] H]; simpl in H.
      * left. apply String.eqb_eq. exact H.
      * right. injection H as _ H. now exists p.
Qed.

Lemma length_append (s t : string) :
  String.length (append s t) = (String.length s + String.length t)%nat.
Proof. induction s as [|c s IH]; simpl; [reflexivity | now rewrite IH]. Qed.

(** Two strings with the same suffix appended are equal when the results are. *)
Lemma append_cancel_r (p q t : string) : append p t = append q t -> p = q.
Proof.
  revert q. induction p as [|c p IH]; intros [|d q] H.
  - reflexivity.
  - exfalso. apply (f_equal String.length) in H. simpl in H.
    rewrite length_append in H. lia.
  - exfalso. apply (f_equal String.length) in H. simpl in H.
    rewrite length_append in H. lia.
  - simpl in H. injection H as -> H. f_equal. apply IH, H.
Qed.

Lemma test_name_not_training (ID : string) :
  endswith (test_phase_file ID) "_training_phase.csv" = false.
Proof.
  apply not_true_iff_false. intros H. apply endswith_spec in H as [p H].
  unfold test_phase_file in H.
  change "_training_phase.csv" with (append "_training" "_phase.csv") in H.
  change "_test_phase.csv" with (append "_test" "_phase.csv") in H.
  rewrite <- !append_assoc in H. apply append_cancel_r in H.
  assert (Hrev : forall a b : string, append a "_test" = append b "_training" -> False).
  { clear. intros a b H.
    assert (E : endswith (append a "_test") "g" = true)
      by (apply endswith_spec; exists (append b "_trainin");
          rewrite H, append_assoc; reflexivity).
    clear H. induction a as [|c a IH]; [discriminate|].
    cbn [append endswith] in E. apply orb_true_iff in E as [E|E]; [|exact (IH E)].
    apply String.eqb_eq in E. injection E as _ E. destruct a; discriminate. }
  exact (Hrev _ _ H).
Qed.

Lemma info_name_not_read (ID : string) (suffix : string) :
  suffix = "_training_phase.csv" \/ suffix = "_test_phase.csv" ->
  endswith (participant_info_file ID) suffix = false.
Proof.
  intros Hs. apply not_true_iff_false. intros H. apply endswith_spec in H as [p H].
  unfold participant_info_file in H.
  assert (E : endswith (append ID "_participant_info.csv") "_phase.csv" = true).
  { apply endswith_spec. destruct Hs as [-> | ->].
    - exists (append p "_training"). rewrite H, append_assoc. reflexivity.
    - exists (append p "_test"). rewrite H, append_assoc. reflexivity. }
  clear H Hs. induction ID as [|c ID IH]; [discriminate|].
  cbn [append endswith] in E. apply orb_true_iff in E as [E|E]; [|exact (IH E)].
  apply String.eqb_eq in E. apply (f_equal String.length) in E.
  simpl in E. rewrite length_append in E. simpl in E. lia.
Qed.

(** X11. Whatever the participant ID, the analysis reads the training file
    of the experiment as training data, its test file as test data, and does
    not read the participant-information file. *)
Theorem analysis_reads_each_file_as_written :
  forall ID : string,
    use_of_file (training_phase_file ID) = ToTrainingData
    /\ use_of_file (test_phase_file ID) = ToTestData
    /\ use_of_file (participant_info_file ID) = NotRead.
Proof.
  intros ID. unfold use_of_file. split; [|split].
  - assert (E : endswith (training_phase_file ID) "_training_phase.csv" = true)
      by (apply endswith_spec; now exists ID).
    now rewrite E.
  - rewrite test_name_not_training.
    assert (E : endswith (test_phase_file ID) "_test_phase.csv" = true)
      by (apply endswith_spec; now exists ID).
    now rewrite E.
  - rewrite !info_name_not_read; auto.
Qed.

End LoadingSpec.

(** ** The training phase as a whole *)

Module TrainingRunSpec.
Import PyStr PyStrFacts Training TrainingSpec Session.

Lemma correct_rows_snoc (rows : list TrialRecord) (b : Z) (stim : string)
      (v : loop_vars) :
  correct_rows (rows ++ [row_of b stim v])
  = correct_rows rows
      ++ (if stim =? strip (join (trial v)) then [row_of b stim v] else []).
Proof.
  unfold correct_rows. rewrite filter_app. f_equal.
  unfold row_of. cbn [filter rec_accuracy].
  destruct (stim =? strip (join (trial v))); reflexivity.
Qed.

(** The correct rows and the stimuli still to come make up the queue. *)
Lemma conservation_step (queue : list (Z * string)) (s : state)
      (keys : list key_event) :
  map row_key (correct_rows (results_training_phase s)) ++ st_queue s = queue ->
  map row_key (correct_rows (results_training_phase (training_step s keys)))
    ++ st_queue (training_step s keys) = queue.
Proof.
  intros H.
  destruct (training_step_cases s keys)
    as [[E _] | [(v & E1 & _ & E3 & _) | (b & stim & q & v & Hq & _ & _ & E)]].
  - rewrite E. exact H.
  - rewrite E1, E3. exact H.
  - rewrite E. cbn [results_training_phase st_queue].
    rewrite correct_rows_snoc, map_app, <- app_assoc, <- H, Hq. f_equal.
    destruct (stim =? strip (join (trial v))); reflexivity.
Qed.

Lemma conservation (queue : list (Z * string)) (batches : list (list key_event)) :
  let s := training_run (training_init queue) batches in
  map row_key (correct_rows (results_training_phase s)) ++ st_queue s = queue.
Proof.
  apply (training_run_invariant
           (fun s => map row_key (correct_rows (results_training_phase s))
                       ++ st_queue s = queue)).
  - intros s keys. apply conservation_step.
  - reflexivity.
Qed.

(** X1. At every moment of the training phase, the rows with accuracy 1,
    in the order they were recorded, followed by the stimuli still to be
    typed, are the presentation queue: each stimulus of each block gets
    exactly one correct row, in presentation order. *)
Theorem correct_rows_then_pending_are_the_queue :
  forall (queue : list (Z * string)) (batches : list (list key_event)),
    let s := training_run (training_init queue) batches in
    map row_key (correct_rows (results_training_phase s)) ++ st_queue s = queue
    /\ (length (correct_rows (results_training_phase s)) + length (st_queue s)
        = length queue)%nat.
Proof.
  intros queue batches s. pose proof (conservation queue batches) as H.
  cbv zeta in H. fold s in H. split; [exact H|].
  apply (f_equal (@length _)) in H.
  rewrite length_app, length_map in H. exact H.
Qed.

Lemma stimuli_of_block (b : Z) (rows : list TrialRecord) :
  map rec_stimulus (rows_of_block b rows)
  = map snd (filter (fun k => (fst k =? b)%Z) (map row_key rows)).
Proof.
  induction rows as [|r rows IH]; [reflexivity|].
  cbn [rows_of_block filter map row_key fst].
  destruct (rec_block r =? b)%Z; cbn [map snd]; [f_equal|]; exact IH.
Qed.

Lemma filter_block_same (b : Z) (l : list string) :
  filter (fun k : Z * string => (fst k =? b)%Z) (map (pair b) l) = map (pair b) l.
Proof.
  induction l as [|x l IH]; [reflexivity|].
  cbn [map filter fst]. rewrite Z.eqb_refl. now rewrite IH.
Qed.

Lemma filter_block_other (b b' : Z) (l : list string) :
  b' <> b ->
  filter (fun k : Z * string => (fst k =? b)%Z) (map (pair b') l) = [].
Proof.
  intros H. apply Z.eqb_neq in H.
  induction l as [|x l IH]; [reflexivity|].
  cbn [map filter fst]. now rewrite H.
Qed.

Lemma map_snd_pair (b : Z) (l : list string) : map snd (map (pair b) l) = l.
Proof. induction l as [|x l IH]; [reflexivity|]. simpl. now rewrite IH. Qed.

(** X2. When the training phase is over, the correct rows of block 1 are
    the stimuli in the order of the first shuffle, those of block 2 in the
    order of the second: each block has exactly as many correct rows as the
    pool has stimuli. *)
Theorem completed_phase_one_correct_row_per_stimulus_and_block :
  forall (pool shuffled1 shuffled2 : list string)
         (batches : list (list key_event)),
    Permutation pool shuffled1 -> Permutation pool shuffled2 ->
    let s := training_run (training_init (training_queue shuffled1 shuffled2))
                          batches in
    st_queue s = [] ->
    map rec_stimulus (rows_of_block 1 (correct_rows (results_training_phase s)))
      = shuffled1
    /\ map rec_stimulus (rows_of_block 2 (correct_rows (results_training_phase s)))
       = shuffled2
    /\ length (rows_of_block 1 (correct_rows (results_training_phase s)))
       = length pool
    /\ length (rows_of_block 2 (correct_rows (results_training_phase s)))
       = length pool.
Proof.
  intros pool sh1 sh2 batches P1 P2 s Hdone.
  pose proof (conservation (training_queue sh1 sh2) batches) as H.
  cbv zeta in H. fold s in H. rewrite Hdone, app_nil_r in H. unfold training_queue in H.
  assert (E1 : map rec_stimulus
                 (rows_of_block 1 (correct_rows (results_training_phase s))) = sh1).
  { rewrite stimuli_of_block, H, filter_app, filter_block_same.
    rewrite (filter_block_other 1 2) by discriminate.
    rewrite app_nil_r. apply map_snd_pair. }
  assert (E2 : map rec_stimulus
                 (rows_of_block 2 (correct_rows (results_training_phase s))) = sh2).
  { rewrite stimuli_of_block, H, filter_app, filter_block_same.
    rewrite (filter_block_other 2 1) by discriminate.
    apply map_snd_pair. }
  split; [exact E1|]. split; [exact E2|]. split.
  - rewrite (Permutation_length P1), <- E1 at 1. now rewrite length_map.
  - rewrite (Permutation_length P2), <- E2 at 1. now rewrite length_map.
Qed.

(** X4. The training file always holds exactly the rows recorded so far: it
    does not exist before the first attempt is over and is rewritten with
    every row at the end of each attempt. *)
Theorem training_file_holds_every_row :
  forall (queue : list (Z * string)) (batches : list (list key_event)),
    let s := training_run (training_init queue) batches in
    training_csv s
    = match results_training_phase s with
      | [] => None
      | _ :: _ => Some (results_training_phase s)
      end.
Proof.
  intros queue batches.
  apply (training_run_invariant
           (fun s => training_csv s
                     = match results_training_phase s with
                       | [] => None
                       | _ :: _ => Some (results_training_phase s)
                       end)).
  - intros s keys H.
    destruct (training_step_cases s keys)
      as [[E _] | [(v & E1 & E2 & _) | (b & stim & q & v & _ & _ & _ & E)]].
    + rewrite E. exact H.
    + rewrite E1, E2. exact H.
    + rewrite E. cbn [results_training_phase training_csv].
      destruct (results_training_phase s ++ [row_of b stim v]) eqn:Er; [|reflexivity].
      apply app_eq_nil in Er as [_ Er]. discriminate.
  - reflexivity.
Qed.

Lemma run_extends (batches : list (list key_event)) :
  forall s : state,
    exists rows done,
      results_training_phase (training_run s batches)
        = results_training_phase s ++ rows
      /\ st_queue s = done ++ st_queue (training_run s batches).
Proof.
  induction batches as [|keys batches IH]; intros s.
  - exists [], []. simpl. now rewrite app_nil_r.
  - unfold training_run in *. cbn [fold_left].
    destruct (IH (training_step s keys)) as (rows & done & Er & Eq).
    destruct (training_step_cases s keys)
      as [[E _] | [(v & E1 & _ & E3 & _) | (b & stim & q & v & Hq & _ & _ & E)]].
    + rewrite E in *. exists rows, done. split; assumption.
    + rewrite E1 in Er. rewrite E3 in Eq. exists rows, done. split; assumption.
    + rewrite E in *. cbn [results_training_phase st_queue] in Er, Eq.
      rewrite Er, Hq. destruct (stim =? strip (join (trial v))).
      * exists (row_of b stim v :: rows), ((b, stim) :: done).
        split; [now rewrite <- app_assoc|]. rewrite Eq at 1. reflexivity.
      * exists (row_of b stim v :: rows), done.
        split; [now rewrite <- app_assoc|]. exact Eq.
Qed.

(** X5. Polling further never removes, changes or reorders a recorded row,
    and never puts a stimulus back: the rows after more batches extend the rows
    before, and the queue before ends with the queue after. *)
Theorem rows_are_append_only_and_queue_only_shrinks :
  forall (s : state) (batches more : list (list key_event)),
    exists rows done,
      results_training_phase (training_run s (batches ++ more))
        = results_training_phase (training_run s batches) ++ rows
      /\ st_queue (training_run s batches)
         = done ++ st_queue (training_run s (batches ++ more)).
Proof.
  intros s batches more. unfold training_run. rewrite fold_left_app.
  apply (run_extends more).
Qed.

(** X3. In the recorded rows, a row with accuracy 0 is always followed by a
    row for the same stimulus of the same block; and while the last row has
    accuracy 0, its stimulus is the one on screen. *)
Theorem failed_row_is_followed_by_same_stimulus :
  forall (queue : list (Z * string)) (batches : list (list key_event)),
    let s := training_run (training_init queue) batches in
    (forall before r1 r2 after,
        results_training_phase s = before ++ r1 :: r2 :: after ->
        rec_accuracy r1 = 0%Z ->
        row_key r2 = row_key r1)
    /\ (forall before r,
           results_training_phase s = before ++ [r] ->
           rec_accuracy r = 0%Z ->
           exists q, st_queue s = row_key r :: q).
Proof.
  intros queue batches.
  apply (training_run_invariant
           (fun s =>
              (forall before r1 r2 after,
                  results_training_phase s = before ++ r1 :: r2 :: after ->
                  rec_accuracy r1 = 0%Z -> row_key r2 = row_key r1)
              /\ (forall before r,
                     results_training_phase s = before ++ [r] ->
                     rec_accuracy r = 0%Z ->
                     exists q, st_queue s = row_key r :: q))).
  - clear. intros s keys [Hadj Hlast].
    destruct (training_step_cases s keys)
      as [[E _] | [(v & E1 & _ & E3 & _) | (b & stim & q & v & Hq & _ & _ & E)]].
    + rewrite E. split; assumption.
    + rewrite E1, E3. split; assumption.
    + rewrite E. cbn [results_training_phase st_queue]. split.
      * intros before r1 r2 after Hres Hacc.
        destruct (exists_last (l := r2 :: after)) as (mid & x & Hmid); [discriminate|].
        rewrite Hmid in Hres.
        change (before ++ r1 :: mid ++ [x]) with (before ++ (r1 :: mid) ++ [x]) in Hres.
        rewrite app_assoc in Hres. apply app_inj_tail in Hres as [Hres Hx].
        destruct mid as [|m mid].
        -- simpl in Hmid. injection Hmid as -> ->.
           destruct (Hlast before r1 Hres Hacc) as [q' Hq'].
           rewrite Hq in Hq'.
           assert (Hk : (b, stim) = row_key r1) by congruence.
           subst x. exact Hk.
        -- simpl in Hmid. injection Hmid as -> ->.
           exact (Hadj before r1 m (mid ++ []) ltac:(rewrite app_nil_r; exact Hres) Hacc).
      * intros before r Hres Hacc.
        apply app_inj_tail in Hres as [_ <-].
        unfold row_of in Hacc |- *. cbn [rec_accuracy] in Hacc.
        destruct (stim =? strip (join (trial v))); [discriminate|].
        exists q. reflexivity.
  - simpl. split.
    + intros before r1 r2 after H. destruct before; discriminate.
    + intros before r H. destruct before; discriminate.
Qed.

Lemma loop_vars_eta (v : loop_vars) :
  response v = true -> LoopVars (trial v) (RT v) true = v.
Proof. destruct v as [t rt r]. simpl. now intros ->. Qed.

Lemma poll_split (s : state) (keys1 keys2 : list key_event) :
  commits keys1 = false ->
  training_step (training_step s keys1) keys2 = training_step s (keys1 ++ keys2).
Proof.
  intros Hc. destruct (st_queue s) as [|[b stim] q] eqn:Hq.
  - assert (E : forall keys, training_step s keys = s)
      by (intros keys; unfold training_step; now rewrite Hq).
    now rewrite !E.
  - rewrite (training_step_polling s keys1 Hc), Hq.
    unfold training_step.
    cbn [st_queue st_trial st_RT results_training_phase training_csv].
    rewrite Hq. rewrite loop_vars_eta
      by (rewrite response_handle_batch, Hc; reflexivity).
    unfold handle_batch. rewrite fold_left_app. reflexivity.
Qed.

(** X6. How the key events of an attempt are split into polls does not
    matter up to the committing poll: polls without a commit event followed by
    one more poll leave the phase in the state that the single poll of all
    their events leaves it in. *)
Theorem outcome_independent_of_poll_boundaries :
  forall (s : state) (polls : list (list key_event)) (last : list key_event),
    Forall (fun keys => commits keys = false) polls ->
    training_run s (polls ++ [last]) = training_step s (concat polls ++ last).
Proof.
  intros s polls last Hall. revert s.
  induction Hall as [|keys polls Hc _ IH]; intros s; [reflexivity|].
  change (training_run s ((keys :: polls) ++ [last]))
    with (training_run (training_step s keys) (polls ++ [last])).
  rewrite IH, (poll_split s keys _ Hc). cbn [concat]. now rewrite app_assoc.
Qed.

Lemma one_char_key (key : string) :
  String.length key = 1%nat ->
  (key =? "return") = false /\ (key =? "backspace") = false.
Proof.
  destruct key as [|c [|d key]]; try discriminate.
  intros _. split; apply String.eqb_neq; discriminate.
Qed.

Lemma typed_keys_append (typed : list key_event) :
  Forall types_char typed ->
  forall v,
    handle_batch v typed
    = LoopVars (trial v ++ map (fun e => upper (fst e)) typed) (RT v) (response v).
Proof.
  unfold handle_batch.
  induction 1 as [|[key t] typed Hk _ IH]; intros v.
  - simpl. rewrite app_nil_r. now destruct v.
  - cbn [fold_left]. rewrite IH. unfold types_char in Hk. simpl fst in Hk.
    unfold handle_key. destruct (one_char_key key Hk) as [-> ->].
    rewrite Hk. cbn [Nat.eqb trial RT response map fst].
    now rewrite <- app_assoc.
Qed.

Lemma backspaces_truncate (dels : list key_event) :
  Forall deletes dels ->
  forall v,
    handle_batch v dels
    = LoopVars (firstn (length (trial v) - length dels) (trial v)) (RT v) (response v).
Proof.
  unfold handle_batch.
  induction 1 as [|[key t] dels Hk _ IH]; intros v.
  - simpl. rewrite Nat.sub_0_r, firstn_all. now destruct v.
  - cbn [fold_left]. rewrite IH. unfold deletes in Hk. simpl in Hk. subst key.
    unfold handle_key. cbn [String.eqb Ascii.eqb Bool.eqb andb].
    destruct (trial v) as [|x l] eqn:Et.
    + rewrite Et. cbn [length Nat.sub]. now rewrite firstn_nil.
    + cbn [trial RT response]. rewrite removelast_firstn_len.
      rewrite firstn_firstn, length_firstn. f_equal.
      cbn [length]. f_equal. lia.
Qed.

(** X7. Typing one-character keys appends their upper-case forms, and
    'backspace' events after them remove as many entries from the end of the
    buffer, stopping at the empty buffer: as many deletions as typed keys
    restore the buffer, and neither touches the reaction time. *)
Theorem typing_then_deleting :
  forall (v : loop_vars) (typed dels : list key_event),
    Forall types_char typed -> Forall deletes dels ->
    let buffer := trial v ++ map (fun e => upper (fst e)) typed in
    let v' := handle_batch v (typed ++ dels) in
    trial v' = firstn (length buffer - length dels) buffer
    /\ RT v' = RT v /\ response v' = response v
    /\ (length dels = length typed -> trial v' = trial v)
    /\ (length buffer <= length dels -> trial v' = [])%nat.
Proof.
  intros v typed dels Ht Hd buffer v'.
  assert (E : v' = LoopVars (firstn (length buffer - length dels) buffer)
                            (RT v) (response v)).
  { subst v'. unfold handle_batch. rewrite fold_left_app.
    fold (handle_batch v typed). rewrite (typed_keys_append typed Ht).
    fold (handle_batch
            (LoopVars (trial v ++ map (fun e => upper (fst e)) typed) (RT v) (response v))
            dels).
    rewrite (backspaces_truncate dels Hd). reflexivity. }
  rewrite E. cbn [trial RT response].
  split; [reflexivity|]. split; [reflexivity|]. split; [reflexivity|]. split.
  - intros Hlen. subst buffer. rewrite length_app, length_map, Hlen.
    rewrite Nat.add_sub, firstn_app, Nat.sub_diag, firstn_all.
    simpl. apply app_nil_r.
  - intros Hlen. replace (length buffer - length dels)%nat with 0%nat by lia.
    reflexivity.
Qed.

Lemma upper_lower_char (c : ascii) :
  is_lower c = false -> upper_char (lower_char c) = c.
Proof.
  destruct c as [b0 b1 b2 b3 b4 b5 b6 b7].
  destruct b0, b1, b2, b3, b4, b5, b6, b7;
    intros H; vm_compute in H |- *; congruence.
Qed.

Lemma typed_stimulus (stim : string) (t : Q) :
  has_lower stim = false ->
  join (map (fun e : string * Q => upper (fst e))
            (map (fun c => (key_of_char c, t)) (list_ascii_of_string stim)))
  = stim.
Proof.
  unfold has_lower. induction stim as [|c stim IH]; [reflexivity|].
  cbn [any_char]. intros H. apply orb_false_iff in H as [Hc Hs].
  cbn [list_ascii_of_string map fst]. rewrite join_cons, (IH Hs).
  unfold key_of_char, upper. cbn [map_chars append].
  now rewrite (upper_lower_char c Hc).
Qed.

Lemma keys_for_typed (stim : string) (t : Q) :
  Forall types_char (map (fun c => (key_of_char c, t)) (list_ascii_of_string stim)).
Proof. apply Forall_map, Forall_forall. intros c _. reflexivity. Qed.

Lemma keys_for_commit (stim : string) (t : Q) : commits (keys_for stim t) = true.
Proof.
  unfold commits, keys_for. rewrite existsb_app. apply orb_true_iff. right.
  reflexivity.
Qed.

Lemma typed_step (s : state) (b : Z) (stim : string) (q : list (Z * string))
      (t : Q) :
  st_queue s = (b, stim) :: q -> st_trial s = [] ->
  has_lower stim = false -> strip stim = stim ->
  training_step s (keys_for stim t)
  = MkState q [] None
            (results_training_phase s ++ [MkRecord b stim stim 1 (Some t)])
            (Some (results_training_phase s ++ [MkRecord b stim stim 1 (Some t)])).
Proof.
  intros Hq Ht Hlow Hstrip.
  rewrite (training_step_commit s _ b stim q Hq (keys_for_commit stim t)).
  unfold keys_for. rewrite commit_last_event.
  rewrite (typed_keys_append _ (keys_for_typed stim t)).
  unfold row_of. cbn [trial RT]. rewrite Ht. cbn [app].
  rewrite (typed_stimulus stim t Hlow), Hstrip, String.eqb_refl. reflexivity.
Qed.

(** X8. A stimulus without lower-case letters and without surrounding
    whitespace can always be passed: at the start of an attempt, typing its
    characters and pressing 'return' records one row with accuracy 1, the
    stimulus as response and the time of the 'return', and moves on to the
    next stimulus. *)
Theorem upper_case_stimulus_can_be_typed :
  forall (s : state) (b : Z) (stim : string) (q : list (Z * string)) (t : Q),
    st_queue s = (b, stim) :: q -> st_trial s = [] ->
    has_lower stim = false -> strip stim = stim ->
    let s' := training_step s (keys_for stim t) in
    st_queue s' = q
    /\ results_training_phase s'
       = results_training_phase s ++ [MkRecord b stim stim 1 (Some t)]
    /\ training_csv s' = Some (results_training_phase s')
    /\ st_trial s' = [].
Proof.
  intros s b stim q t Hq Ht Hlow Hstrip s'. subst s'.
  rewrite (typed_step s b stim q t Hq Ht Hlow Hstrip). repeat split.
Qed.

Lemma typed_run (t : Q) (queue : list (Z * string)) :
  Forall (fun bs => has_lower (snd bs) = false /\ strip (snd bs) = snd bs) queue ->
  forall results csv,
    let s := training_run (MkState queue [] None results csv)
                          (map (fun bs => keys_for (snd bs) t) queue) in
    st_queue s = []
    /\ results_training_phase s
       = results ++ map (fun bs => MkRecord (fst bs) (snd bs) (snd bs) 1 (Some t)) queue.
Proof.
  induction 1 as [|[b stim] queue [Hlow Hstrip] _ IH]; intros results csv.
  - simpl. now rewrite app_nil_r.
  - unfold training_run. cbn [map fold_left snd fst].
    rewrite (typed_step (MkState ((b, stim) :: queue) [] None results csv)
                        b stim queue t eq_refl eq_refl Hlow Hstrip).
    cbn [results_training_phase].
    destruct (IH (results ++ [MkRecord b stim stim 1 (Some t)])
                 (Some (results ++ [MkRecord b stim stim 1 (Some t)]))) as [E1 E2].
    unfold training_run in E1, E2. cbn [snd fst] in E1, E2.
    split; [exact E1|]. rewrite E2, <- app_assoc. reflexivity.
Qed.

(** X9. If no stimulus loaded from the training file has a lower-case
    letter, a participant who types every presented stimulus correctly at the
    first attempt finishes the training phase: the queue is empty and there is
    one row with accuracy 1 per stimulus and block, twice the number of lines
    of the file. *)
Theorem training_phase_completes_when_typed_correctly :
  forall (content shuffled1 shuffled2 : list string) (t : Q),
    Permutation (load_training_stimuli content) shuffled1 ->
    Permutation (load_training_stimuli content) shuffled2 ->
    Forall (fun stim => has_lower stim = false) (load_training_stimuli content) ->
    let queue := training_queue shuffled1 shuffled2 in
    let s := training_run (training_init queue)
                          (map (fun bs => keys_for (snd bs) t) queue) in
    st_queue s = []
    /\ results_training_phase s
       = map (fun bs => MkRecord (fst bs) (snd bs) (snd bs) 1 (Some t)) queue
    /\ length (results_training_phase s) = (2 * length content)%nat.
Proof.
  intros content sh1 sh2 t P1 P2 Hlow queue s.
  assert (Hload : Forall (fun stim => has_lower stim = false /\ strip stim = stim)
                         (load_training_stimuli content)).
  { rewrite Forall_forall in Hlow |- *. intros stim Hin. split; [auto|].
    unfold load_training_stimuli in Hin. apply in_map_iff in Hin as [line [<- _]].
    apply LoadingSpec.strip_idempotent. }
  assert (Hq : Forall (fun bs => has_lower (snd bs) = false
                                 /\ strip (snd bs) = snd bs) queue).
  { unfold queue, training_queue. apply Forall_app.
    split; apply Forall_map; cbn [snd];
      [exact (Permutation_Forall P1 Hload) | exact (Permutation_Forall P2 Hload)]. }
  destruct (typed_run t queue Hq [] None) as [E1 E2].
  split; [exact E1|]. split; [exact E2|].
  subst s. unfold training_init. rewrite E2. cbn [app].
  unfold queue, training_queue. rewrite !length_map, length_app, !length_map.
  rewrite <- (Permutation_length P1), <- (Permutation_length P2).
  unfold load_training_stimuli. rewrite length_map. lia.
Qed.

Lemma sorted_repeat_head (b : Z) (l1 l2 : list Z) :
  StronglySorted Z.le (l1 ++ b :: l2) -> StronglySorted Z.le (l1 ++ b :: b :: l2).
Proof.
  induction l1 as [|x l1 IH]; cbn [app]; intros H.
  - constructor; [exact H|]. constructor; [lia|].
    inversion H; assumption.
  - inversion H as [|? ? Hs Hall]; subst. constructor; [exact (IH Hs)|].
    apply Forall_app in Hall as [H1 H2]. apply Forall_app. split; [exact H1|].
    inversion H2; subst. constructor; [assumption|]. constructor; assumption.
Qed.

Lemma sorted_prefix (l1 l2 : list Z) :
  StronglySorted Z.le (l1 ++ l2) -> StronglySorted Z.le l1.
Proof.
  induction l1 as [|x l1 IH]; cbn [app]; intros H; [constructor|].
  inversion H as [|? ? Hs Hall]; subst. constructor; [exact (IH Hs)|].
  apply Forall_app in Hall as [H1 _]. exact H1.
Qed.

Lemma sorted_blocks (sh1 sh2 : list string) :
  StronglySorted Z.le (map fst (training_queue sh1 sh2)).
Proof.
  unfold training_queue. rewrite map_app, !map_map. cbn [fst].
  induction sh1 as [|x sh1 IH]; cbn [map app].
  - induction sh2 as [|y sh2 IH2]; cbn [map]; constructor; [exact IH2|].
    apply Forall_map, Forall_forall. intros; lia.
  - constructor; [exact IH|]. apply Forall_app.
    split; apply Forall_map, Forall_forall; intros; lia.
Qed.

(** X15. The rows of the training file are grouped by block: the block
    numbers of the recorded rows never decrease, every row of block 1 is for a
    stimulus of the first shuffle and every row of block 2 for one of the
    second; no row has another block number. *)
Theorem rows_are_grouped_by_block :
  forall (shuffled1 shuffled2 : list string) (batches : list (list key_event)),
    let s := training_run (training_init (training_queue shuffled1 shuffled2))
                          batches in
    StronglySorted Z.le (map rec_block (results_training_phase s))
    /\ Forall (fun r => (rec_block r = 1%Z /\ In (rec_stimulus r) shuffled1)
                        \/ (rec_block r = 2%Z /\ In (rec_stimulus r) shuffled2))
              (results_training_phase s).
Proof.
  intros sh1 sh2 batches.
  set (queue := training_queue sh1 sh2).
  assert (Inv : (fun s =>
                   StronglySorted Z.le (map rec_block (results_training_phase s)
                                          ++ map fst (st_queue s))
                   /\ Forall (fun r => In (row_key r) queue) (results_training_phase s)
                   /\ exists done, queue = done ++ st_queue s)
                  (training_run (training_init queue) batches)).
  { apply training_run_invariant.
    - clear batches. intros s keys (Hs & Hin & done & Hd).
      destruct (training_step_cases s keys)
        as [[E _] | [(v & E1 & _ & E3 & _) | (b & stim & q & v & Hq & _ & _ & E)]].
      + rewrite E. eauto.
      + rewrite E1, E3. eauto.
      + rewrite E. cbn [results_training_phase st_queue].
        rewrite Hq in Hs, Hd. cbn [map fst] in Hs.
        assert (Hrow : In (row_key (row_of b stim v)) queue).
        { rewrite Hd. apply in_or_app. right. left. reflexivity. }
        split; [|split].
        * rewrite map_app. cbn [map rec_block row_of]. rewrite <- app_assoc.
          destruct (stim =? strip (join (trial v))); cbn [app map fst].
          -- exact Hs.
          -- apply sorted_repeat_head. exact Hs.
        * apply Forall_app. split; [exact Hin|]. constructor; [exact Hrow | constructor].
        * destruct (stim =? strip (join (trial v))).
          -- exists (done ++ [(b, stim)]). rewrite <- app_assoc. exact Hd.
          -- exists done. exact Hd.
    - cbn [training_init results_training_phase st_queue map app].
      split; [apply sorted_blocks|]. split; [constructor|]. now exists []. }
  cbv beta in Inv. destruct Inv as (Hs & Hin & _).
  split; [exact (sorted_prefix _ _ Hs)|].
  apply Forall_forall. intros r Hr. rewrite Forall_forall in Hin.
  specialize (Hin r Hr). unfold queue, training_queue, row_key in Hin.
  apply in_app_or in Hin as [H|H]; apply in_map_iff in H as [x [E Hx]];
    injection E as <- <-; auto.
Qed.

End TrainingRunSpec.

(** ** The test phase as a whole *)

Module TestRunSpec.
Import PyStr PyStrFacts Test TestSpec Session.

Lemma test_trial_key (row : string * Z) (key_response : option (list key_event)) :
  test_row_key (test_trial row key_response) = row.
Proof.
  destruct row as [stim label]. unfold test_trial.
  destruct (label =? 0)%Z; destruct key_response as [[|[key t] rest]|]; reflexivity.
Qed.

Lemma after_loop_skipn (rows : list (string * Z)) (n : nat)
      (results : list TrialRecord) :
  after_loop (skipn n rows) results None
  = if (length rows <=? n)%nat then Some results else None.
Proof.
  revert n. induction rows as [|row rows IH]; intros n.
  - rewrite skipn_nil. reflexivity.
  - destruct n as [|n]; [reflexivity|]. cbn [skipn length]. apply IH.
Qed.

Lemma test_run_from (responses : list (option (list key_event))) :
  forall (rows : list (string * Z)) (results : list TrialRecord),
    test_run (MkState rows results (after_loop rows results None)) responses
    = let results' :=
        results ++ map (fun p => test_trial (fst p) (snd p)) (combine rows responses) in
      let rest := skipn (length responses) rows in
      MkState rest results' (after_loop rest results' None).
Proof.
  induction responses as [|resp responses IH]; intros rows results.
  - cbn [test_run fold_left length skipn]. destruct rows; cbn [combine map];
      now rewrite app_nil_r.
  - unfold test_run in *. cbn [fold_left]. unfold test_step at 2.
    cbn [st_rows results_test_phase test_csv].
    destruct rows as [|row rows].
    + rewrite (IH [] results). cbn [combine map skipn]. rewrite !skipn_nil.
      reflexivity.
    + assert (E : after_loop rows (results ++ [test_trial row resp])
                             (after_loop (row :: rows) results None)
                  = after_loop rows (results ++ [test_trial row resp]) None)
        by (destruct rows; reflexivity).
      rewrite E, (IH rows). cbn [combine map length skipn fst snd].
      now rewrite <- !app_assoc.
Qed.

Lemma firstn_combine_keys (rows : list (string * Z)) :
  forall responses : list (option (list key_event)),
    map test_row_key
        (map (fun p => test_trial (fst p) (snd p)) (combine rows responses))
    = firstn (length responses) rows.
Proof.
  induction rows as [|row rows IH]; intros [|resp responses];
    cbn [combine map length firstn fst snd]; try reflexivity.
  now rewrite test_trial_key, IH.
Qed.

(** X12. The test phase records exactly one row per answered item, in the
    order the items were drawn and with the item's stimulus and label; items
    are never revisited; and the test file exists only from the moment the
    last item has been answered, when it holds all the rows. *)
Theorem one_test_row_per_item_in_order :
  forall (rows : list (string * Z)) (responses : list (option (list key_event))),
    let s := test_run (test_init rows) responses in
    results_test_phase s
    = map (fun p => test_trial (fst p) (snd p)) (combine rows responses)
    /\ map test_row_key (results_test_phase s) = firstn (length responses) rows
    /\ st_rows s = skipn (length responses) rows
    /\ test_csv s
       = if (length rows <=? length responses)%nat
         then Some (results_test_phase s) else None.
Proof.
  intros rows responses s. subst s. unfold test_init.
  rewrite (test_run_from responses rows []). cbv zeta.
  cbn [results_test_phase st_rows test_csv app].
  split; [reflexivity|]. split; [apply firstn_combine_keys|].
  split; [reflexivity|]. apply after_loop_skipn.
Qed.

(** X13. The test rows that the analysis selects with [accuracy == 1]
    never lack a reaction time, and their pressed key is the correct key: the
    mean reaction time of correct answers is taken over present values only. *)
Theorem correct_test_rows_have_time_and_key :
  forall (rows : list (string * Z)) (responses : list (option (list key_event))),
    Forall (fun r => (exists t : Q, rec_RT r = Some t)
                     /\ rec_key_pressed r = Some (rec_correct_key r))
           (correct_test_rows
              (results_test_phase (test_run (test_init rows) responses))).
Proof.
  intros rows responses. unfold test_init.
  rewrite (test_run_from responses rows []). cbv zeta.
  cbn [results_test_phase app]. apply Forall_forall. intros r Hr.
  unfold correct_test_rows in Hr. apply filter_In in Hr as [Hr Hacc].
  apply in_map_iff in Hr as [[[stim label] resp] [<- _]]. cbn [fst snd] in *.
  apply Z.eqb_eq in Hacc.
  destruct resp as [[|[key t] rest]|].
  - rewrite (test_trial_no_response stim label (Some []) (or_intror eq_refl)) in Hacc.
    discriminate.
  - rewrite test_trial_captured in Hacc |- *.
    cbn [rec_accuracy rec_RT rec_key_pressed rec_correct_key] in Hacc |- *.
    split; [now exists t|].
    destruct (String.eqb_spec (upper key) (if (label =? 0)%Z then "J" else "F"))
      as [E|E]; [now rewrite E | discriminate].
  - rewrite (test_trial_no_response stim label None (or_introl eq_refl)) in Hacc.
    discriminate.
Qed.

(** X14. For an answer of the bounded wait that holds accepted keys, the
    row is scored by the physical key alone: accuracy is 1 exactly when the
    label is 0 and the key is J or j, or the label is not 0 and the key is F
    or f; the recorded key is "J" or "F", and only the first event of the
    answer counts. *)
Theorem accepted_key_scoring_table :
  forall (stim : string) (label : Z) (arrived : list key_event)
         (key : string) (t : Q) (rest : list key_event),
    wait_contract arrived (Some ((key, t) :: rest)) ->
    let r := test_trial (stim, label) (Some ((key, t) :: rest)) in
    (rec_accuracy r = 1%Z <->
       (label = 0%Z /\ (key = "J" \/ key = "j"))
       \/ (label <> 0%Z /\ (key = "F" \/ key = "f")))
    /\ (rec_key_pressed r = Some "J" <-> key = "J" \/ key = "j")
    /\ (rec_key_pressed r = Some "F" <-> key = "F" \/ key = "f")
    /\ r = test_trial (stim, label) (Some [(key, t)]).
Proof.
  intros stim label arrived key t rest [_ Hc] r. subst r.
  destruct (Hc (key, t) (or_introl eq_refl)) as [_ Hw].
  unfold in_window in Hw. apply andb_true_iff in Hw as [Hw _].
  apply andb_true_iff in Hw as [Hw _].
  apply existsb_exists in Hw as [k [Hin Hk]]. apply String.eqb_eq in Hk.
  simpl fst in Hk. subst k. rewrite !test_trial_captured.
  cbn [rec_accuracy rec_key_pressed].
  simpl in Hin.
  destruct Hin as [<-|[<-|[<-|[<-|[]]]]];
    destruct (Z.eqb_spec label 0) as [El|El];
    cbn -[Z.eqb]; repeat split; intros; auto;
    repeat match goal with
           | H : _ \/ _ |- _ => destruct H
           | H : _ /\ _ |- _ => destruct H
           end;
    try discriminate; try contradiction; auto.
Qed.

End TestRunSpec.

(** ** The properties of the phases on concrete sessions *)

Module SessionExamples.
Import PyStr Session.

Lemma completed_phase_witness :
  let pool := ["A"; "B"] in
  let shuffled1 := ["B"; "A"] in
  let shuffled2 := ["A"; "B"] in
  let queue := Training.training_queue shuffled1 shuffled2 in
  let batches := [keys_for "B" 1; keys_for "X" 2; keys_for "A" 3;
                  keys_for "A" 4; keys_for "B" 5] in
  let s := Training.training_run (Training.training_init queue) batches in
  Training.st_queue s = []
  /\ length (Training.results_training_phase s) = 5%nat
  /\ map Training.rec_stimulus
         (rows_of_block 1 (correct_rows (Training.results_training_phase s)))
     = shuffled1
  /\ map Training.rec_stimulus
         (rows_of_block 2 (correct_rows (Training.results_training_phase s)))
     = shuffled2
  /\ length (rows_of_block 1 (correct_rows (Training.results_training_phase s)))
     = length pool
  /\ length (rows_of_block 2 (correct_rows (Training.results_training_phase s)))
     = length pool.
Proof.
  intros pool shuffled1 shuffled2 queue batches s.
  assert (Hdone : Training.st_queue s = []) by reflexivity.
  split; [exact Hdone|]. split; [reflexivity|].
  exact (TrainingRunSpec.completed_phase_one_correct_row_per_stimulus_and_block
           pool shuffled1 shuffled2 batches
           (perm_swap "B" "A" []) (Permutation_refl pool) Hdone).
Defined.

Lemma poll_boundaries_witness :
  let s := Training.training_init [(1%Z, "AB")] in
  let polls := [[("a", 1%Q)]; []; [("x", 2%Q); ("backspace", 2%Q)]] in
  let last := [("b", 3%Q); ("return", 4%Q)] in
  Forall (fun keys => Training.commits keys = false) polls
  /\ Training.training_run s (polls ++ [last])
     = Training.training_step s (concat polls ++ last)
  /\ Training.results_training_phase (Training.training_run s (polls ++ [last]))
     = [Training.MkRecord 1 "AB" "AB" 1 (Some 4%Q)].
Proof.
  intros s polls last.
  assert (H : Forall (fun keys => Training.commits keys = false) polls)
    by (repeat constructor).
  split; [exact H|]. split; [|reflexivity].
  exact (TrainingRunSpec.outcome_independent_of_poll_boundaries s polls last H).
Defined.

Lemma typing_then_deleting_witness :
  let v := Training.LoopVars ["V"] None true in
  let typed := [("o", 1%Q); ("x", 1%Q)] in
  let dels := [("backspace", 2%Q); ("backspace", 2%Q)] in
  Forall types_char typed /\ Forall deletes dels
  /\ Training.trial (Training.handle_batch v (typed ++ dels)) = ["V"].
Proof.
  intros v typed dels.
  assert (Ht : Forall types_char typed) by (repeat constructor).
  assert (Hd : Forall deletes dels) by (repeat constructor).
  split; [exact Ht|]. split; [exact Hd|].
  exact (proj1 (proj2 (proj2 (proj2
           (TrainingRunSpec.typing_then_deleting v typed dels Ht Hd))))
           eq_refl).
Defined.

Lemma upper_case_stimulus_witness :
  let s := Training.training_init [(1%Z, "VOTEB"); (1%Z, "PELSO")] in
  let s' := Training.training_step s (keys_for "VOTEB" 2) in
  has_lower "VOTEB" = false /\ strip "VOTEB" = "VOTEB"
  /\ Training.st_queue s' = [(1%Z, "PELSO")]
  /\ Training.results_training_phase s'
     = Training.results_training_phase s
         ++ [Training.MkRecord 1 "VOTEB" "VOTEB" 1 (Some 2%Q)]
  /\ Training.training_csv s' = Some (Training.results_training_phase s')
  /\ Training.st_trial s' = [].
Proof.
  intros s s'. split; [reflexivity|]. split; [reflexivity|].
  exact (TrainingRunSpec.upper_case_stimulus_can_be_typed
           s 1%Z "VOTEB" [(1%Z, "PELSO")] 2 eq_refl eq_refl eq_refl eq_refl).
Defined.

Lemma training_phase_completes_witness :
  let content := [String.append "VOTEB" (String (ascii_of_nat 10) EmptyString);
                  "  PELSO "] in
  let shuffled1 := ["PELSO"; "VOTEB"] in
  let shuffled2 := ["VOTEB"; "PELSO"] in
  let queue := Training.training_queue shuffled1 shuffled2 in
  let s := Training.training_run (Training.training_init queue)
             (map (fun bs => keys_for (snd bs) 1) queue) in
  load_training_stimuli content = ["VOTEB"; "PELSO"]
  /\ Training.st_queue s = []
  /\ Training.results_training_phase s
     = map (fun bs => Training.MkRecord (fst bs) (snd bs) (snd bs) 1 (Some 1%Q)) queue
  /\ length (Training.results_training_phase s) = (2 * length content)%nat.
Proof.
  intros content shuffled1 shuffled2 queue s. split; [reflexivity|].
  refine (TrainingRunSpec.training_phase_completes_when_typed_correctly
            content shuffled1 shuffled2 1
            (perm_swap "PELSO" "VOTEB" []) (Permutation_refl _) _).
  repeat constructor.
Defined.

Lemma accepted_key_scoring_witness :
  let arrived := [("x", 1%Q); ("j", 2%Q)] in
  let r := Test.test_trial ("PELSOT", 0%Z) (Some [("j", 2%Q)]) in
  Test.wait_contract arrived (Some [("j", 2%Q)])
  /\ (Test.rec_accuracy r = 1%Z <->
        (0%Z = 0%Z /\ ("j" = "J" \/ "j" = "j"))
        \/ (0%Z <> 0%Z /\ ("j" = "F" \/ "j" = "f")))
  /\ (Test.rec_key_pressed r = Some "J" <-> "j" = "J" \/ "j" = "j")
  /\ (Test.rec_key_pressed r = Some "F" <-> "j" = "F" \/ "j" = "f")
  /\ r = Test.test_trial ("PELSOT", 0%Z) (Some [("j", 2%Q)]).
Proof.
  intros arrived r.
  assert (H : Test.wait_contract arrived (Some [("j", 2%Q)])).
  { split; [discriminate|]. intros e [<-|[]].
    split; [right; left; reflexivity | reflexivity]. }
  exact (conj H (TestRunSpec.accepted_key_scoring_table
                   "PELSOT" 0%Z arrived "j" 2 [] H)).
Defined.

End SessionExamples.
